(** * BCC defect classification: a shallow embedding of [modify]

    The OVITO modifier [modify] of [BCC_defect_classification.py] labels
    every particle of a snapshot with one of seven defect types.  The three
    per-particle descriptors (coordination, CNA structure type,
    centrosymmetry) and the cutoff neighbour finder are computed by OVITO;
    here they are the inputs of the embedding.

    - coordination and structure type are integer arrays: [list Z];
    - centrosymmetry is a floating-point array: [list float] (binary64,
      compared exactly as the script does, NaN included);
    - the "Defect Type" property is an integer array that the script
      mutates in place: it is the state of a small state-and-error monad,
      the error being Python's IndexError of an out-of-range subscript. *)

From Stdlib Require Import ZArith Floats.PrimFloat Lia.
From stdpp Require Import base option list gmap.

#[local] Set Warnings "-inexact-float".

Local Open Scope Z_scope.

(** ** Defect types (the integer codes at the top of [modify]) *)

Definition blk : Z := 0.  (* Bulk *)
Definition srf : Z := 1.  (* Surface *)
Definition vcn : Z := 2.  (* Vacancy *)
Definition dsl : Z := 3.  (* Dislocation *)
Definition twn : Z := 4.  (* Twin *)
Definition plf : Z := 5.  (* Planar Fault *)
Definition els : Z := 6.  (* Unidentified *)

(** ** The particle data the script fetches *)

Record particles := Particles {
  atom_coord : list Z;               (* data.particles_['Coordination'] *)
  atom_cna : list Z;                 (* data.particles_['Structure Type'] *)
  atom_csp : list float;             (* data.particles_['Centrosymmetry'] *)
  neighbor_finder : nat → list nat   (* CutoffNeighborFinder(...).find(i), as indices *)
}.

(** ** State-and-error monad

    The state is [defect_property]; [None] is a raised IndexError.  The
    state survives an error, as the array mutated so far does in Python. *)

Definition M (A : Type) : Type := list Z → option A * list Z.

Definition ret {A : Type} (a : A) : M A := λ s, (Some a, s).

Definition bind {A B : Type} (m : M A) (f : A → M B) : M B := λ s,
  match m s with
  | (Some a, s') => f a s'
  | (None, s') => (None, s')
  end.

Declare Scope m_scope.
Delimit Scope m_scope with M.
Notation "'let*' x ':=' m 'in' k" := (bind m (λ x, k))
  (at level 10, x name, m at level 100, k at level 200) : m_scope.
Notation "m ;; k" := (bind m (λ _, k))
  (at level 100, k at level 200, right associativity) : m_scope.
Local Open Scope m_scope.

(** [arr[n]] for one of the input arrays. *)
Definition load {A : Type} (arr : list A) (n : nat) : M A :=
  λ s, (arr !! n, s).

(** [defect_property[n]] read. *)
Definition get_label (n : nat) : M Z :=
  λ s, (s !! n, s).

(** [defect_property[i] = v]. *)
Definition set_label (i : nat) (v : Z) : M unit :=
  λ s, if decide (i < length s)%nat then (Some tt, <[i:=v]> s) else (None, s).

(** Python's short-circuit [a and b], [a or b]. *)
Definition and_then (a b : M bool) : M bool :=
  let* x := a in if x then b else ret false.

Definition or_else (a b : M bool) : M bool :=
  let* x := a in if x then ret true else b.

(** [[x for x in l if p(x)]]. *)
Fixpoint filter_where {A : Type} (p : A → M bool) (l : list A) : M (list A) :=
  match l with
  | [] => ret []
  | x :: l' =>
      let* b := p x in
      let* r := filter_where p l' in
      ret (if b then x :: r else r)
  end.

(** [sum(p(x) for x in l)], and the [count += 1] loop of [is_surface]:
    a running total over the list, left to right. *)
Fixpoint count_from {A : Type} (p : A → M bool) (l : list A) (acc : Z) : M Z :=
  match l with
  | [] => ret acc
  | x :: l' => let* b := p x in count_from p l' (acc + Z.b2z b)
  end.

Definition count_where {A : Type} (p : A → M bool) (l : list A) : M Z :=
  count_from p l 0.

(** [for i in range(start, start + n): body(i)]. *)
Fixpoint for_range (start : nat) (n : nat) (body : nat → M unit) : M unit :=
  match n with
  | O => ret tt
  | S n' => body start ;; for_range (S start) n' body
  end.

(** ** The script *)

Section modify.
Variable data : particles.

(** [atom_cna[n] != 3 or atom_coord[n] != 14], the condition of the list
    comprehension in [get_neighbors]. *)
Definition not_perfect (n : nat) : M bool :=
  or_else (let* c := load (atom_cna data) n in ret (negb (c =? 3)))
          (let* k := load (atom_coord data) n in ret (negb (k =? 14))).

Definition get_neighbors (index : nat) : M (list nat) :=
  filter_where not_perfect (neighbor_finder data index).

(** [defect_property[n] == srf or (atom_cna[n] != 3 and atom_coord[n] <= 11)],
    the test of the counting loop in [is_surface]. *)
Definition surface_neighbor (n : nat) : M bool :=
  or_else (let* l := get_label n in ret (l =? srf))
          (and_then (let* c := load (atom_cna data) n in ret (negb (c =? 3)))
                    (let* k := load (atom_coord data) n in ret (k <=? 11))).

(* 1. Surface Identification *)
Definition is_surface (i : nat) : M bool :=
  let* c := load (atom_cna data) i in
  if negb (c =? 3) then
    let* k := load (atom_coord data) i in
    if k <=? 11 then (set_label i srf ;; ret true)
    else
      let* neighbors := get_neighbors i in
      let* count := count_where surface_neighbor neighbors in
      if 4 <=? count then (set_label i srf ;; ret true)
      else ret false
  else ret false.

(** [atom_coord[n] == c], the test of the neighbour sums of [is_dislo],
    [is_twin] and [is_planarfault]. *)
Definition coord_is (c : Z) (n : nat) : M bool :=
  let* k := load (atom_coord data) n in ret (k =? c).

(** [atom_coord[n] >= 12 and atom_coord[n] != 14], the first sum of the
    [coord == 14] branch of [is_dislo]. *)
Definition coord_ge12_not14 (n : nat) : M bool :=
  and_then (let* k := load (atom_coord data) n in ret (12 <=? k))
           (let* k := load (atom_coord data) n in ret (negb (k =? 14))).

(* 2. Dislocation Identification *)
Definition is_dislo (i : nat) : M bool :=
  let* coord := load (atom_coord data) i in
  if (12 <=? coord) && negb (coord =? 14) then
    let* neighbors := get_neighbors i in
    let* nr_14 := count_where (coord_is 14) neighbors in
    let nr_non14 := Z.of_nat (length neighbors) - nr_14 in
    if nr_14 <? nr_non14 then (set_label i dsl ;; ret true)
    else ret false
  else if coord =? 14 then
    let* neighbors := get_neighbors i in
    let* nr_non14 := count_where coord_ge12_not14 neighbors in
    let* nr_14 := count_where (coord_is 14) neighbors in
    if (4 <=? nr_non14) && (nr_14 <=? 6) then (set_label i dsl ;; ret true)
    else ret false
  else ret false.

(** [atom_coord[n] == c and atom_csp[n] > 4], the test of every sum in
    [is_vac]. *)
Definition coord_and_csp_gt4 (c : Z) (n : nat) : M bool :=
  and_then (let* k := load (atom_coord data) n in ret (k =? c))
           (let* x := load (atom_csp data) n in ret (PrimFloat.ltb 4 x)).

(* 3. Vacancy Identification *)
Definition is_vac (i : nat) : M bool :=
  let* coord := load (atom_coord data) i in
  let* csp := load (atom_csp data) i in
  (* Mono-vacancy checks *)
  if (coord =? 13) && PrimFloat.ltb csp 1 then
    let* neighbors := get_neighbors i in
    let* nr_13 := count_where (coord_and_csp_gt4 13) neighbors in
    let* nr_12 := count_where (coord_and_csp_gt4 12) neighbors in
    if (nr_13 =? 4) || ((nr_13 =? 2) && (nr_12 =? 2))
    then (set_label i vcn ;; ret true)
    else ret false
  else if (coord =? 13) && PrimFloat.ltb 4 csp then
    let* neighbors := get_neighbors i in
    let* nr_13_4 := count_where (coord_and_csp_gt4 13) neighbors in
    if 4 <=? nr_13_4 then (set_label i vcn ;; ret true)
    else ret false
  (* Di-vacancy checks *)
  else if (coord =? 12) && PrimFloat.ltb 4 csp then
    let* neighbors := get_neighbors i in
    let* nr_12_4 := count_where (coord_and_csp_gt4 12) neighbors in
    let* nr_13_4 := count_where (coord_and_csp_gt4 13) neighbors in
    if (nr_12_4 =? 1) && (nr_13_4 =? 4) then (set_label i vcn ;; ret true)
    else ret false
  else ret false.

(* 4. Twin Identification *)
Definition is_twin (i : nat) : M bool :=
  let* coord := load (atom_coord data) i in
  let* csp := load (atom_csp data) i in
  if (coord =? 13) && PrimFloat.ltb 4.5 csp then
    let* neighbors := get_neighbors i in
    let* nr_13 := count_where (coord_is 13) neighbors in
    let* nr_14 := count_where (coord_is 14) neighbors in
    if (nr_13 =? 5) && (nr_14 =? 2) then (set_label i twn ;; ret true)
    else ret false
  else if (coord =? 14) && PrimFloat.ltb 8 csp then
    (set_label i twn ;; ret true)
  else if coord =? 14 then
    let* neighbors := get_neighbors i in
    let* nr_13 := count_where (coord_is 13) neighbors in
    let* nr_14 := count_where (coord_is 14) neighbors in
    if (4 <=? nr_13) && (2 <=? nr_14) then (set_label i twn ;; ret true)
    else ret false
  else ret false.

(* 5. Planar Fault Identification *)
Definition is_planarfault (i : nat) : M bool :=
  let* coord := load (atom_coord data) i in
  let* c := load (atom_cna data) i in
  if negb (c =? 3) then
    let* neighbors := get_neighbors i in
    let* nr_12 := count_where (coord_is 12) neighbors in
    let* nr_13 := count_where (coord_is 13) neighbors in
    if coord =? 12 then
      if ((3 <=? nr_12) && (nr_12 <=? 6)) && ((7 <=? nr_13) && (nr_13 <=? 9))
      then (set_label i plf ;; ret true)
      else ret false
    else if coord =? 13 then
      if (nr_12 + nr_13 =? 9) && (7 <=? nr_13)
      then (set_label i plf ;; ret true)
      else ret false
    else ret false
  else ret false.

(** The body of the loop of Step 2, for one particle. *)
Definition classify (i : nat) : M unit :=
  let* perfect := and_then (let* c := load (atom_cna data) i in ret (c =? 3))
                     (let* k := load (atom_coord data) i in ret (k =? 14)) in
  if perfect then set_label i blk  (* Perfect BCC *)
  else
    let* found := or_else (is_surface i)
             (or_else (is_dislo i)
               (or_else (is_vac i)
                 (or_else (is_twin i) (is_planarfault i)))) in
    if found then ret tt
    else set_label i els.  (* Unidentified *)

(** [defect_property[:] = blk], then Step 2 over
    [range(len(atom_coord))].  The result is the outcome of the pass and
    the defect property as the pass left it. *)
Definition modify : option unit * list Z :=
  let n := length (atom_coord data) in
  for_range 0 n classify (replicate n blk).

End modify.

(** ** Snapshots as OVITO hands them over

    All particle properties of one snapshot have the particle count as
    their length, and the neighbour finder reports indices of particles of
    that snapshot. *)

Definition natoms (d : particles) : nat := length (atom_coord d).

Definition aligned (d : particles) : bool :=
  (length (atom_cna d) =? natoms d)%nat &&
  (length (atom_csp d) =? natoms d)%nat &&
  forallb (λ i, forallb (λ n, n <? natoms d)%nat (neighbor_finder d i))
          (seq 0 (natoms d)).

(** The defect property when the loop of Step 2 reaches particle [i]. *)
Definition labels_before (d : particles) (i : nat) : list Z :=
  (for_range 0 i (classify d) (replicate (natoms d) blk)).2.

(** ** The rules in the words of the specification

    Total readings of the descriptors, the filtered neighbour set, the
    neighbour statistics, and the predicates of the rule evaluator in their
    priority order.  They are compared with the script below. *)

Module Spec.
Section rules.
Variable d : particles.

Definition BCC_like : Z := 3.

Definition coordination (n : nat) : Z := default 0 (atom_coord d !! n).
Definition structureType (n : nat) : Z := default 0 (atom_cna d !! n).
Definition centrosymmetry (n : nat) : float := default 0%float (atom_csp d !! n).

Definition perfect_lattice (n : nat) : bool :=
  (structureType n =? BCC_like) && (coordination n =? 14).

Definition NeighborSet (i : nat) : list nat :=
  List.filter (λ n, negb (perfect_lattice n)) (neighbor_finder d i).

Definition countWhere (q : nat → bool) (l : list nat) : Z :=
  Z.of_nat (length (List.filter q l)).

Definition surface_qualifying (labels : list Z) (n : nat) : bool :=
  bool_decide (labels !! n = Some srf) ||
  (negb (structureType n =? BCC_like) && (coordination n <=? 11)).

Definition surface (labels : list Z) (i : nat) : bool :=
  negb (structureType i =? BCC_like) &&
  ((coordination i <=? 11) ||
   (4 <=? countWhere (surface_qualifying labels) (NeighborSet i))).

Definition dislocation (i : nat) : bool :=
  let ns := NeighborSet i in
  if (12 <=? coordination i) && negb (coordination i =? 14) then
    countWhere (λ n, coordination n =? 14) ns
      <? countWhere (λ n, negb (coordination n =? 14)) ns
  else if coordination i =? 14 then
    (4 <=? countWhere (λ n, (12 <=? coordination n) && negb (coordination n =? 14)) ns)
    && (countWhere (λ n, coordination n =? 14) ns <=? 6)
  else false.

(** Neighbours with the given coordination and centrosymmetry above 4. *)
Definition strained (c : Z) (n : nat) : bool :=
  (coordination n =? c) && PrimFloat.ltb 4 (centrosymmetry n).

Definition vacancy (i : nat) : bool :=
  let ns := NeighborSet i in
  let n13 := countWhere (strained 13) ns in
  let n12 := countWhere (strained 12) ns in
  if (coordination i =? 13) && PrimFloat.ltb (centrosymmetry i) 1 then
    (n13 =? 4) || ((n13 =? 2) && (n12 =? 2))
  else if (coordination i =? 13) && PrimFloat.ltb 4 (centrosymmetry i) then
    4 <=? n13
  else if (coordination i =? 12) && PrimFloat.ltb 4 (centrosymmetry i) then
    (n12 =? 1) && (n13 =? 4)
  else false.

Definition twin (i : nat) : bool :=
  let ns := NeighborSet i in
  let n13 := countWhere (λ n, coordination n =? 13) ns in
  let n14 := countWhere (λ n, coordination n =? 14) ns in
  if (coordination i =? 13) && PrimFloat.ltb 4.5 (centrosymmetry i) then
    (n13 =? 5) && (n14 =? 2)
  else if (coordination i =? 14) && PrimFloat.ltb 8 (centrosymmetry i) then true
  else if coordination i =? 14 then (4 <=? n13) && (2 <=? n14)
  else false.

Definition planar_fault (i : nat) : bool :=
  let ns := NeighborSet i in
  let n12 := countWhere (λ n, coordination n =? 12) ns in
  let n13 := countWhere (λ n, coordination n =? 13) ns in
  negb (structureType i =? BCC_like) &&
  (if coordination i =? 12 then
     ((3 <=? n12) && (n12 <=? 6)) && ((7 <=? n13) && (n13 <=? 9))
   else if coordination i =? 13 then (n12 + n13 =? 9) && (7 <=? n13)
   else false).

(** The rule evaluator: perfect-lattice check, then the five predicates in
    priority order, then the fallback. *)
Definition label (labels : list Z) (i : nat) : Z :=
  if perfect_lattice i then blk
  else if surface labels i then srf
  else if dislocation i then dsl
  else if vacancy i then vcn
  else if twin i then twn
  else if planar_fault i then plf
  else els.

End rules.
End Spec.

(** ** Footprints on the defect property

    A computation is blind to the labels when its result is the same for
    every defect property and it leaves the property alone; it touches only
    particle [i] when it changes the property nowhere else. *)

Definition label_blind {A : Type} (m : M A) : Prop :=
  ∃ r, ∀ s, m s = (r, s).

Definition touches_only {A : Type} (i : nat) (m : M A) : Prop :=
  ∀ s, length (m s).2 = length s ∧ ∀ k, k ≠ i → (m s).2 !! k = s !! k.

(** ** Sample snapshots *)

(** A neighbour finder given by its table of neighbour lists. *)
Definition neighbor_table (tbl : list (list nat)) : nat → list nat :=
  λ i, default [] (tbl !! i).

(** A single particle without neighbours. *)
Definition lone_atom (coord cna : Z) (csp : float) : particles :=
  Particles [coord] [cna] [csp] (λ _, []).

(** Coordination 14 and centrosymmetry 9.0, with the BCC tag and with
    another tag. *)
Definition hot_bcc_atom : particles := lone_atom 14 3 9.
Definition hot_other_atom : particles := lone_atom 14 0 9.

(** Particle 0 has coordination 13 and centrosymmetry 0.5; its neighbours
    are four particles of coordination 13 and centrosymmetry 5.0 and two
    perfect-lattice particles of coordination 14. *)
Definition vacancy_shell_in_bulk : particles :=
  Particles [13; 13; 13; 13; 13; 14; 14]
            [3; 3; 3; 3; 3; 3; 3]
            [0.5; 5; 5; 5; 5; 0; 0]%float
            (neighbor_table [[1; 2; 3; 4; 5; 6]%nat]).

(** The same shell with four coordination-14 neighbours that do not carry
    the BCC tag. *)
Definition vacancy_shell_distorted : particles :=
  Particles [13; 13; 13; 13; 13; 14; 14; 14; 14]
            [3; 3; 3; 3; 3; 0; 0; 0; 0]
            [0.5; 5; 5; 5; 5; 0; 0; 0; 0]%float
            (neighbor_table [[1; 2; 3; 4; 5; 6; 7; 8]%nat]).

(** Particle 0 has coordination 13 and centrosymmetry 0.5, and five
    neighbours of coordination 13 and centrosymmetry 5.0. *)
Definition five_strained_neighbors : particles :=
  Particles [13; 13; 13; 13; 13; 13]
            [3; 3; 3; 3; 3; 3]
            [0.5; 5; 5; 5; 5; 5]%float
            (neighbor_table [[1; 2; 3; 4; 5]%nat]).

(** Four under-coordinated particles 0..3, four particles 4..7 of
    coordination 12 next to all of them, and particle 8 of coordination 12
    next to 4..7; none carries the BCC tag. *)
Definition surface_chain : particles :=
  Particles [10; 10; 10; 10; 12; 12; 12; 12; 12]
            [0; 0; 0; 0; 0; 0; 0; 0; 0]
            [0; 0; 0; 0; 0; 0; 0; 0; 0]%float
            (neighbor_table [[]; []; []; []; [0; 1; 2; 3]; [0; 1; 2; 3];
                             [0; 1; 2; 3]; [0; 1; 2; 3]; [4; 5; 6; 7]]%nat).

(** The same nine particles numbered the other way round: particle 0 is
    the one next to 1..4, which are next to 5..8. *)
Definition surface_chain_reversed : particles :=
  Particles [12; 12; 12; 12; 12; 10; 10; 10; 10]
            [0; 0; 0; 0; 0; 0; 0; 0; 0]
            [0; 0; 0; 0; 0; 0; 0; 0; 0]%float
            (neighbor_table [[1; 2; 3; 4]; [5; 6; 7; 8]; [5; 6; 7; 8];
                             [5; 6; 7; 8]; [5; 6; 7; 8]; []; []; []; []]%nat).

(** Two particles of coordination -1, one with the BCC tag and one with a
    tag (7) that the common neighbour analysis never assigns. *)
Definition out_of_domain : particles :=
  Particles [-1; -1] [3; 7] [0; 0]%float (λ _, []).

(** Two coordination entries, one structure type entry. *)
Definition ragged : particles :=
  Particles [10; 10] [0] [0; 0]%float (λ _, []).

(** ** Step 3: the colour of each defect type

    Only the dictionary [color_map] and the array [color_property] that
    line 211 builds from it are part of the embedding.  The call of
    [create_property] that follows hands the array to OVITO; what OVITO
    does with it (the check of its shape, the storage format of the
    'Color' property) is not. *)

Definition rgb : Type := float * float * float.

(** The dictionary [color_map]; a missing key is Python's KeyError. *)
Definition color_map : gmap Z rgb :=
  list_to_map
    [ (blk, (0.8, 0.8, 0.8)%float);   (* Gray - Bulk *)
      (srf, (0.0, 0.0, 1.0)%float);   (* Blue - Surface *)
      (vcn, (1.0, 0.0, 0.0)%float);   (* Red - Vacancy *)
      (dsl, (0.0, 1.0, 0.0)%float);   (* Green - Dislocation *)
      (twn, (1.0, 1.0, 0.0)%float);   (* Yellow - Twin *)
      (plf, (1.0, 0.5, 0.0)%float);   (* Orange - Planar Fault *)
      (els, (0.5, 0.5, 0.5)%float) ]. (* Dark Gray - Unidentified *)

(** [np.array([color_map[defect] for defect in defect_property])]. *)
Definition color_property (defect_property : list Z) : option (list rgb) :=
  mapM (λ defect, color_map !! defect) defect_property.

(** Step 2 followed by line 211: the array [color_property] as the script
    has it before the call of [create_property], a double-precision
    triple per entry of [defect_property] (none for an empty snapshot).
    An exception of Step 2 leaves the script before line 211. *)
Definition modify_color (d : particles) : option (list rgb) :=
  match modify d with
  | (Some _, defect_property) => color_property defect_property
  | (None, _) => None
  end.

(** The seven defect types. *)
Definition defect_types : list Z := [blk; srf; vcn; dsl; twn; plf; els].

(** ** More sample snapshots *)

(** Particle 0 (coordination 13, not BCC-like, centrosymmetry 2.0) with
    nine neighbours of coordination 13 and nine of coordination 14, none
    of them BCC-like. *)
Definition planar_fault_site : particles :=
  Particles (13 :: replicate 9 13 ++ replicate 9 14)
            (replicate 19 0)
            (2%float :: replicate 18 0%float)
            (neighbor_table [seq 1 18]).

(** Particle 0 (coordination 14, not BCC-like, centrosymmetry 0) with four
    neighbours of coordination 13 and seven of coordination 14, none of
    them BCC-like. *)
Definition twin_site : particles :=
  Particles (14 :: replicate 4 13 ++ replicate 7 14)
            (replicate 12 0)
            (replicate 12 0%float)
            (neighbor_table [seq 1 11]).

(** Three BCC-like particles in a row: coordination 13, 14 and 12; the
    middle one is a neighbour of both ends, which are neighbours of each
    other. *)
Definition bcc_row : particles :=
  Particles [13; 14; 12] [3; 3; 3] [0; 0; 0]%float
            (neighbor_table [[1; 2]; [0; 2]; [1; 0]]%nat).

(** Particle 0 (coordination 13, BCC-like, centrosymmetry 5.0) whose two
    neighbours are perfect-lattice particles. *)
Definition defect_in_perfect_crystal : particles :=
  Particles [13; 14; 14] [3; 3; 3] [5; 0; 0]%float
            (neighbor_table [[1; 2]; [0]; [0]]%nat).

(** The same particles, with particle 0 seeing no neighbour at all. *)
Definition defect_alone : particles :=
  Particles [13; 14; 14] [3; 3; 3] [5; 0; 0]%float
            (neighbor_table [[]; [0]; [0]]%nat).

(** A neighbour list that names a particle (7) the snapshot does not
    have. *)
Definition dangling_neighbor : particles :=
  Particles [13; 13] [0; 0] [0; 0]%float (neighbor_table [[1; 7]%nat]).

(** Particle 0 (coordination 12, not BCC-like) with exactly twelve
    neighbours: four of coordination 12 and eight of coordination 13. *)
Definition planar_like_shell : particles :=
  Particles (12 :: replicate 4 12 ++ replicate 8 13)
            (replicate 13 0)
            (replicate 13 0%float)
            (neighbor_table [seq 1 12]).

(** A computation keeps the defect property within the defect types when
    it writes nothing else into it. *)
Definition keeps_defect_types {A : Type} (m : M A) : Prop :=
  ∀ s, Forall (λ l, In l defect_types) s →
       Forall (λ l, In l defect_types) (m s).2.

(** ** Evaluating the monad *)

Lemma bind_eval {A B : Type} (m : M A) (f : A → M B) s a s' :
  m s = (Some a, s') → bind m f s = f a s'.
Proof. unfold bind. intros ->. reflexivity. Qed.

Lemma set_label_eval i v s :
  (i < length s)%nat → set_label i v s = (Some tt, <[i:=v]> s).
Proof. intros Hi. unfold set_label. case_decide; [reflexivity | lia]. Qed.

Lemma and_then_eval (a b : M bool) s x y :
  a s = (Some x, s) → (x = true → b s = (Some y, s)) →
  and_then a b s = (Some (x && y), s).
Proof.
  intros Ha Hb. unfold and_then. rewrite (bind_eval _ _ _ _ _ Ha).
  destruct x; simpl; [apply Hb; reflexivity | reflexivity].
Qed.

Lemma or_else_eval (a b : M bool) s x y :
  a s = (Some x, s) → (x = false → b s = (Some y, s)) →
  or_else a b s = (Some (x || y), s).
Proof.
  intros Ha Hb. unfold or_else. rewrite (bind_eval _ _ _ _ _ Ha).
  destruct x; simpl; [reflexivity | apply Hb; reflexivity].
Qed.

(** In [a or b or ...] a true [a] decides, with the state it left; a false
    [a] that wrote nothing passes on to the rest. *)
Lemma bind_or_else_true {B : Type} (a b : M bool) (f : bool → M B) s s' :
  a s = (Some true, s') → bind (or_else a b) f s = f true s'.
Proof. intros Ha. unfold or_else, bind. rewrite Ha. reflexivity. Qed.

Lemma bind_or_else_false {B : Type} (a b : M bool) (f : bool → M B) s :
  a s = (Some false, s) → bind (or_else a b) f s = bind b f s.
Proof. intros Ha. unfold or_else, bind. rewrite Ha. reflexivity. Qed.

Lemma filter_where_eval {A : Type} (p : A → M bool) (q : A → bool) l s :
  (∀ x, In x l → p x s = (Some (q x), s)) →
  filter_where p l s = (Some (List.filter q l), s).
Proof.
  induction l as [|x l IH]; intros Hp; simpl; [reflexivity|].
  rewrite (bind_eval _ _ _ _ _ (Hp x (or_introl eq_refl))).
  rewrite (bind_eval _ _ _ _ _ (IH (λ y Hy, Hp y (or_intror Hy)))).
  destruct (q x); reflexivity.
Qed.

Lemma countWhere_cons q x l :
  Spec.countWhere q (x :: l) = Z.b2z (q x) + Spec.countWhere q l.
Proof.
  unfold Spec.countWhere. simpl. destruct (q x); simpl length; simpl Z.b2z; lia.
Qed.

Lemma count_from_eval (p : nat → M bool) (q : nat → bool) l acc s :
  (∀ x, In x l → p x s = (Some (q x), s)) →
  count_from p l acc s = (Some (acc + Spec.countWhere q l), s).
Proof.
  revert acc. induction l as [|x l IH]; intros acc Hp; simpl.
  - unfold ret, Spec.countWhere. simpl. do 2 f_equal. lia.
  - rewrite (bind_eval _ _ _ _ _ (Hp x (or_introl eq_refl))).
    rewrite (IH _ (λ y Hy, Hp y (or_intror Hy))), countWhere_cons.
    do 2 f_equal. lia.
Qed.

Lemma count_where_eval (p : nat → M bool) (q : nat → bool) l s :
  (∀ x, In x l → p x s = (Some (q x), s)) →
  count_where p l s = (Some (Spec.countWhere q l), s).
Proof. intros Hp. unfold count_where. rewrite (count_from_eval p q) by exact Hp. reflexivity. Qed.

Lemma countWhere_complement q l :
  Spec.countWhere (λ n, negb (q n)) l = Z.of_nat (length l) - Spec.countWhere q l.
Proof.
  induction l as [|x l IH]; [unfold Spec.countWhere; simpl; lia|].
  rewrite !countWhere_cons, IH. simpl length. destruct (q x); simpl; lia.
Qed.

Lemma countWhere_ext q1 q2 l :
  (∀ x, In x l → q1 x = q2 x) → Spec.countWhere q1 l = Spec.countWhere q2 l.
Proof.
  induction l as [|x l IH]; intros H; [reflexivity|].
  rewrite !countWhere_cons, (H x (or_introl eq_refl)), IH; [reflexivity|].
  intros y Hy. apply H. right. exact Hy.
Qed.

(** ** What [aligned] gives *)

Lemma aligned_cna d : aligned d = true → length (atom_cna d) = natoms d.
Proof.
  unfold aligned. rewrite !andb_true_iff, !Nat.eqb_eq. tauto.
Qed.

Lemma aligned_csp d : aligned d = true → length (atom_csp d) = natoms d.
Proof.
  unfold aligned. rewrite !andb_true_iff, !Nat.eqb_eq. tauto.
Qed.

Lemma aligned_neighbor d i n :
  aligned d = true → (i < natoms d)%nat → In n (neighbor_finder d i) →
  (n < natoms d)%nat.
Proof.
  unfold aligned. rewrite !andb_true_iff, forallb_forall.
  intros [_ Hnb] Hi Hn.
  specialize (Hnb i). rewrite in_seq, forallb_forall in Hnb.
  apply Nat.ltb_lt, Hnb; [lia | exact Hn].
Qed.

Lemma NeighborSet_In d i n :
  In n (Spec.NeighborSet d i) ↔
  In n (neighbor_finder d i) ∧ Spec.perfect_lattice d n = false.
Proof.
  unfold Spec.NeighborSet. rewrite filter_In, negb_true_iff. reflexivity.
Qed.

Lemma NeighborSet_lt d i n :
  aligned d = true → (i < natoms d)%nat → In n (Spec.NeighborSet d i) →
  (n < natoms d)%nat.
Proof.
  intros Hal Hi [Hn _]%NeighborSet_In. eapply aligned_neighbor; eassumption.
Qed.

(** ** The script computes the rules of the specification

    On an aligned snapshot no subscript is out of range: every helper
    returns the value of its total reading and leaves the defect property
    alone, and every [is_...] function writes its defect type at [i]
    exactly when the predicate of the rule holds. *)

Ltac mstep H := rewrite (bind_eval _ _ _ _ _ H).

Section refinement.
Variable d : particles.
Hypothesis Hal : aligned d = true.

Lemma load_coord n s :
  (n < natoms d)%nat →
  load (atom_coord d) n s = (Some (Spec.coordination d n), s).
Proof.
  intros Hn. unfold load, Spec.coordination.
  destruct (lookup_lt_is_Some_2 (atom_coord d) n Hn) as [x ->]. reflexivity.
Qed.

Lemma load_cna n s :
  (n < natoms d)%nat →
  load (atom_cna d) n s = (Some (Spec.structureType d n), s).
Proof.
  intros Hn. unfold load, Spec.structureType.
  rewrite <- (aligned_cna d Hal) in Hn.
  destruct (lookup_lt_is_Some_2 (atom_cna d) n Hn) as [x ->]. reflexivity.
Qed.

Lemma load_csp n s :
  (n < natoms d)%nat →
  load (atom_csp d) n s = (Some (Spec.centrosymmetry d n), s).
Proof.
  intros Hn. unfold load, Spec.centrosymmetry.
  rewrite <- (aligned_csp d Hal) in Hn.
  destruct (lookup_lt_is_Some_2 (atom_csp d) n Hn) as [x ->]. reflexivity.
Qed.

Lemma get_label_eval n s :
  (n < length s)%nat →
  get_label n s = (Some (default blk (s !! n)), s).
Proof.
  intros Hn. unfold get_label.
  destruct (lookup_lt_is_Some_2 s n Hn) as [x ->]. reflexivity.
Qed.

Lemma not_perfect_eval n s :
  (n < natoms d)%nat →
  not_perfect d n s = (Some (negb (Spec.perfect_lattice d n)), s).
Proof.
  intros Hn. unfold not_perfect, Spec.perfect_lattice, Spec.BCC_like.
  rewrite negb_andb. apply or_else_eval.
  - mstep (load_cna n s Hn). reflexivity.
  - intros _. mstep (load_coord n s Hn). reflexivity.
Qed.

Lemma get_neighbors_eval i s :
  (i < natoms d)%nat →
  get_neighbors d i s = (Some (Spec.NeighborSet d i), s).
Proof.
  intros Hi. unfold get_neighbors, Spec.NeighborSet.
  apply filter_where_eval. intros n Hn.
  apply not_perfect_eval. eapply aligned_neighbor; eassumption.
Qed.

Lemma surface_neighbor_eval n s :
  (n < natoms d)%nat → length s = natoms d →
  surface_neighbor d n s = (Some (Spec.surface_qualifying d s n), s).
Proof.
  intros Hn Hs. unfold surface_neighbor, Spec.surface_qualifying, Spec.BCC_like.
  assert (Hn' : (n < length s)%nat) by lia.
  assert (Hl : (let* l := get_label n in ret (l =? srf)) s
               = (Some (bool_decide (s !! n = Some srf)), s)).
  { mstep (get_label_eval n s Hn').
    destruct (lookup_lt_is_Some_2 s n Hn') as [x Hx]. rewrite Hx. simpl.
    unfold ret. do 2 f_equal.
    destruct (Z.eqb_spec x srf) as [->|Hne].
    - rewrite bool_decide_eq_true_2; reflexivity.
    - rewrite bool_decide_eq_false_2; [reflexivity | congruence]. }
  apply or_else_eval; [exact Hl|]. intros _.
  apply and_then_eval.
  - mstep (load_cna n s Hn). reflexivity.
  - intros _. mstep (load_coord n s Hn). reflexivity.
Qed.

Lemma coord_is_eval c n s :
  (n < natoms d)%nat →
  coord_is d c n s = (Some (Spec.coordination d n =? c), s).
Proof. intros Hn. unfold coord_is. mstep (load_coord n s Hn). reflexivity. Qed.

Lemma coord_ge12_not14_eval n s :
  (n < natoms d)%nat →
  coord_ge12_not14 d n s
  = (Some ((12 <=? Spec.coordination d n) && negb (Spec.coordination d n =? 14)), s).
Proof.
  intros Hn. unfold coord_ge12_not14. apply and_then_eval.
  - mstep (load_coord n s Hn). reflexivity.
  - intros _. mstep (load_coord n s Hn). reflexivity.
Qed.

Lemma coord_and_csp_gt4_eval c n s :
  (n < natoms d)%nat →
  coord_and_csp_gt4 d c n s = (Some (Spec.strained d c n), s).
Proof.
  intros Hn. unfold coord_and_csp_gt4, Spec.strained. apply and_then_eval.
  - mstep (load_coord n s Hn). reflexivity.
  - intros _. mstep (load_csp n s Hn). reflexivity.
Qed.

(** The neighbour sums, over the filtered neighbours of a particle. *)
Lemma count_neighbors_eval (p : nat → M bool) (q : nat → bool) i s :
  (i < natoms d)%nat →
  (∀ n, (n < natoms d)%nat → p n s = (Some (q n), s)) →
  count_where p (Spec.NeighborSet d i) s
  = (Some (Spec.countWhere q (Spec.NeighborSet d i)), s).
Proof.
  intros Hi Hp. apply count_where_eval. intros n Hn.
  apply Hp. eapply NeighborSet_lt; eassumption.
Qed.

Lemma is_surface_eval i s :
  (i < natoms d)%nat → length s = natoms d →
  is_surface d i s
  = if Spec.surface d s i then (Some true, <[i:=srf]> s) else (Some false, s).
Proof.
  intros Hi Hs. unfold is_surface, Spec.surface, Spec.BCC_like.
  assert (Hw : ∀ v, set_label i v s = (Some tt, <[i:=v]> s))
    by (intros v; apply set_label_eval; lia).
  mstep (load_cna i s Hi).
  destruct (negb (Spec.structureType d i =? 3)); simpl; [|reflexivity].
  mstep (load_coord i s Hi).
  destruct (Spec.coordination d i <=? 11); simpl.
  { mstep (Hw srf). reflexivity. }
  mstep (get_neighbors_eval i s Hi).
  mstep (count_neighbors_eval _ (Spec.surface_qualifying d s) i s Hi
           (λ n Hn, surface_neighbor_eval n s Hn Hs)).
  destruct (4 <=? _); [mstep (Hw srf)|]; reflexivity.
Qed.

Lemma is_dislo_eval i s :
  (i < natoms d)%nat → length s = natoms d →
  is_dislo d i s
  = if Spec.dislocation d i then (Some true, <[i:=dsl]> s) else (Some false, s).
Proof.
  intros Hi Hs. unfold is_dislo, Spec.dislocation.
  assert (Hw : ∀ v, set_label i v s = (Some tt, <[i:=v]> s))
    by (intros v; apply set_label_eval; lia).
  mstep (load_coord i s Hi).
  destruct ((12 <=? Spec.coordination d i) && negb (Spec.coordination d i =? 14)).
  { mstep (get_neighbors_eval i s Hi).
    mstep (count_neighbors_eval _ _ i s Hi (λ n Hn, coord_is_eval 14 n s Hn)).
    cbv zeta. rewrite countWhere_complement.
    destruct (_ <? _); [mstep (Hw dsl)|]; reflexivity. }
  destruct (Spec.coordination d i =? 14); [|reflexivity].
  mstep (get_neighbors_eval i s Hi).
  mstep (count_neighbors_eval _ _ i s Hi (λ n Hn, coord_ge12_not14_eval n s Hn)).
  mstep (count_neighbors_eval _ _ i s Hi (λ n Hn, coord_is_eval 14 n s Hn)).
  cbv zeta.
  destruct (_ && _); [mstep (Hw dsl)|]; reflexivity.
Qed.

Lemma is_vac_eval i s :
  (i < natoms d)%nat → length s = natoms d →
  is_vac d i s
  = if Spec.vacancy d i then (Some true, <[i:=vcn]> s) else (Some false, s).
Proof.
  intros Hi Hs. unfold is_vac, Spec.vacancy.
  assert (Hw : ∀ v, set_label i v s = (Some tt, <[i:=v]> s))
    by (intros v; apply set_label_eval; lia).
  assert (Hc : ∀ c, count_where (coord_and_csp_gt4 d c) (Spec.NeighborSet d i) s
               = (Some (Spec.countWhere (Spec.strained d c) (Spec.NeighborSet d i)), s))
    by (intros c; apply count_neighbors_eval;
        [exact Hi | intros n Hn; apply coord_and_csp_gt4_eval; exact Hn]).
  mstep (load_coord i s Hi). mstep (load_csp i s Hi). cbv zeta.
  destruct ((Spec.coordination d i =? 13) && PrimFloat.ltb (Spec.centrosymmetry d i) 1).
  { mstep (get_neighbors_eval i s Hi). mstep (Hc 13). mstep (Hc 12).
    destruct (_ || _); [mstep (Hw vcn)|]; reflexivity. }
  destruct ((Spec.coordination d i =? 13) && PrimFloat.ltb 4 (Spec.centrosymmetry d i)).
  { mstep (get_neighbors_eval i s Hi). mstep (Hc 13).
    destruct (4 <=? _); [mstep (Hw vcn)|]; reflexivity. }
  destruct ((Spec.coordination d i =? 12) && PrimFloat.ltb 4 (Spec.centrosymmetry d i));
    [|reflexivity].
  mstep (get_neighbors_eval i s Hi). mstep (Hc 12). mstep (Hc 13).
  destruct (_ && _); [mstep (Hw vcn)|]; reflexivity.
Qed.

Lemma is_twin_eval i s :
  (i < natoms d)%nat → length s = natoms d →
  is_twin d i s
  = if Spec.twin d i then (Some true, <[i:=twn]> s) else (Some false, s).
Proof.
  intros Hi Hs. unfold is_twin, Spec.twin.
  assert (Hw : ∀ v, set_label i v s = (Some tt, <[i:=v]> s))
    by (intros v; apply set_label_eval; lia).
  assert (Hc : ∀ c, count_where (coord_is d c) (Spec.NeighborSet d i) s
               = (Some (Spec.countWhere (λ n, Spec.coordination d n =? c)
                          (Spec.NeighborSet d i)), s))
    by (intros c; apply count_neighbors_eval;
        [exact Hi | intros n Hn; apply coord_is_eval; exact Hn]).
  mstep (load_coord i s Hi). mstep (load_csp i s Hi). cbv zeta.
  destruct ((Spec.coordination d i =? 13) && PrimFloat.ltb 4.5 (Spec.centrosymmetry d i)).
  { mstep (get_neighbors_eval i s Hi). mstep (Hc 13). mstep (Hc 14).
    destruct (_ && _); [mstep (Hw twn)|]; reflexivity. }
  destruct ((Spec.coordination d i =? 14) && PrimFloat.ltb 8 (Spec.centrosymmetry d i)).
  { mstep (Hw twn). reflexivity. }
  destruct (Spec.coordination d i =? 14); [|reflexivity].
  mstep (get_neighbors_eval i s Hi). mstep (Hc 13). mstep (Hc 14).
  destruct (_ && _); [mstep (Hw twn)|]; reflexivity.
Qed.

Lemma is_planarfault_eval i s :
  (i < natoms d)%nat → length s = natoms d →
  is_planarfault d i s
  = if Spec.planar_fault d i then (Some true, <[i:=plf]> s) else (Some false, s).
Proof.
  intros Hi Hs. unfold is_planarfault, Spec.planar_fault, Spec.BCC_like.
  assert (Hw : ∀ v, set_label i v s = (Some tt, <[i:=v]> s))
    by (intros v; apply set_label_eval; lia).
  assert (Hc : ∀ c, count_where (coord_is d c) (Spec.NeighborSet d i) s
               = (Some (Spec.countWhere (λ n, Spec.coordination d n =? c)
                          (Spec.NeighborSet d i)), s))
    by (intros c; apply count_neighbors_eval;
        [exact Hi | intros n Hn; apply coord_is_eval; exact Hn]).
  mstep (load_coord i s Hi). mstep (load_cna i s Hi). cbv zeta.
  destruct (negb (Spec.structureType d i =? 3)); simpl; [|reflexivity].
  mstep (get_neighbors_eval i s Hi). mstep (Hc 12). mstep (Hc 13).
  destruct (Spec.coordination d i =? 12).
  { destruct (_ && _); [mstep (Hw plf)|]; reflexivity. }
  destruct (Spec.coordination d i =? 13); [|reflexivity].
  destruct (_ && _); [mstep (Hw plf)|]; reflexivity.
Qed.

(** One turn of the loop writes the label of the rule evaluator at [i]. *)
Lemma classify_eval i s :
  (i < natoms d)%nat → length s = natoms d →
  classify d i s = (Some tt, <[i:=Spec.label d s i]> s).
Proof.
  intros Hi Hs. unfold classify, Spec.label.
  assert (Hw : ∀ v, set_label i v s = (Some tt, <[i:=v]> s))
    by (intros v; apply set_label_eval; lia).
  assert (Hp : and_then (let* c := load (atom_cna d) i in ret (c =? 3))
                        (let* k := load (atom_coord d) i in ret (k =? 14)) s
               = (Some (Spec.perfect_lattice d i), s)).
  { unfold Spec.perfect_lattice, Spec.BCC_like. apply and_then_eval.
    - mstep (load_cna i s Hi). reflexivity.
    - intros _. mstep (load_coord i s Hi). reflexivity. }
  mstep Hp. destruct (Spec.perfect_lattice d i); [apply Hw|].
  pose proof (is_surface_eval i s Hi Hs) as H1.
  destruct (Spec.surface d s i);
    [rewrite (bind_or_else_true _ _ _ _ _ H1); reflexivity
    |rewrite (bind_or_else_false _ _ _ _ H1)].
  pose proof (is_dislo_eval i s Hi Hs) as H2.
  destruct (Spec.dislocation d i);
    [rewrite (bind_or_else_true _ _ _ _ _ H2); reflexivity
    |rewrite (bind_or_else_false _ _ _ _ H2)].
  pose proof (is_vac_eval i s Hi Hs) as H3.
  destruct (Spec.vacancy d i);
    [rewrite (bind_or_else_true _ _ _ _ _ H3); reflexivity
    |rewrite (bind_or_else_false _ _ _ _ H3)].
  pose proof (is_twin_eval i s Hi Hs) as H4.
  destruct (Spec.twin d i);
    [rewrite (bind_or_else_true _ _ _ _ _ H4); reflexivity
    |rewrite (bind_or_else_false _ _ _ _ H4)].
  pose proof (is_planarfault_eval i s Hi Hs) as H5.
  destruct (Spec.planar_fault d i); [mstep H5; reflexivity|].
  mstep H5. apply Hw.
Qed.

End refinement.

(** ** The loop of Step 2 *)

Lemma for_range_app a n m body s :
  for_range a (n + m) body s
  = (for_range a n body ;; for_range (a + n) m body) s.
Proof.
  revert a s. induction n as [|n IH]; intros a s; simpl.
  - rewrite Nat.add_0_r. reflexivity.
  - unfold bind. destruct (body a s) as [[[]|] s1]; [|reflexivity].
    rewrite IH. unfold bind. rewrite Nat.add_succ_r. reflexivity.
Qed.

(** On an aligned snapshot a stretch of the loop completes, keeps the
    length of the defect property and touches no particle outside the
    stretch. *)
Lemma for_range_classify d a n s :
  aligned d = true → (a + n ≤ natoms d)%nat → length s = natoms d →
  ∃ s', for_range a n (classify d) s = (Some tt, s') ∧
        length s' = natoms d ∧
        ∀ k, (k < a ∨ a + n ≤ k)%nat → s' !! k = s !! k.
Proof.
  intros Hal. revert a s. induction n as [|n IH]; intros a s Han Hs; simpl.
  - exists s. split; [reflexivity | split; [exact Hs | reflexivity]].
  - mstep (classify_eval d Hal a s ltac:(lia) Hs).
    destruct (IH (S a) (<[a:=Spec.label d s a]> s)) as (s' & Hrun & Hlen & Hframe);
      [lia | rewrite length_insert; exact Hs |].
    exists s'. split; [exact Hrun | split; [exact Hlen |]].
    intros k Hk. rewrite Hframe by lia. apply list_lookup_insert_ne. lia.
Qed.

Lemma labels_before_run d i :
  aligned d = true → (i ≤ natoms d)%nat →
  for_range 0 i (classify d) (replicate (natoms d) blk)
  = (Some tt, labels_before d i).
Proof.
  intros Hal Hi. unfold labels_before.
  destruct (for_range_classify d 0 i (replicate (natoms d) blk) Hal)
    as (s' & -> & _); [lia | apply length_replicate | reflexivity].
Qed.

Lemma labels_before_length d i :
  aligned d = true → (i ≤ natoms d)%nat →
  length (labels_before d i) = natoms d.
Proof.
  intros Hal Hi. unfold labels_before.
  destruct (for_range_classify d 0 i (replicate (natoms d) blk) Hal)
    as (s' & -> & Hlen & _); [lia | apply length_replicate | exact Hlen].
Qed.

(** A particle the loop has not reached yet still carries the initial
    [blk]. *)
Lemma labels_before_later d i k :
  aligned d = true → (i ≤ k < natoms d)%nat →
  labels_before d i !! k = Some blk.
Proof.
  intros Hal Hk. unfold labels_before.
  destruct (for_range_classify d 0 i (replicate (natoms d) blk) Hal)
    as (s' & -> & _ & Hframe); [lia | apply length_replicate |].
  simpl. rewrite Hframe by lia. apply lookup_replicate_2. lia.
Qed.

(** The pass completes, and the label of particle [i] in its output is the
    one the rule evaluator gives on the defect property as the loop found
    it at [i]. *)
Lemma modify_label d i :
  aligned d = true → (i < natoms d)%nat →
  (modify d).1 = Some tt ∧
  length (modify d).2 = natoms d ∧
  (modify d).2 !! i = Some (Spec.label d (labels_before d i) i).
Proof.
  intros Hal Hi.
  pose proof (labels_before_length d i Hal ltac:(lia)) as Hlen.
  destruct (for_range_classify d (S i) (natoms d - S i)
              (<[i:=Spec.label d (labels_before d i) i]> (labels_before d i)) Hal)
    as (s' & Hrun & Hlen' & Hframe); [lia | rewrite length_insert; exact Hlen |].
  assert (Hm : modify d = (Some tt, s')).
  { unfold modify. fold (natoms d). rewrite <- Hrun.
    replace (natoms d) with (i + S (natoms d - S i))%nat at 1 by lia.
    rewrite for_range_app.
    mstep (labels_before_run d i Hal ltac:(lia)).
    change (0 + i)%nat with i. simpl for_range.
    mstep (classify_eval d Hal i _ Hi Hlen). reflexivity. }
  rewrite Hm. simpl.
  split; [reflexivity | split; [exact Hlen'|]].
  rewrite Hframe by lia. apply list_lookup_insert_eq. lia.
Qed.

(** A particle the loop has passed keeps its label to the end. *)
Lemma labels_before_earlier d i k :
  aligned d = true → (k < i ≤ natoms d)%nat →
  labels_before d i !! k = (modify d).2 !! k.
Proof.
  intros Hal Hk.
  assert (Hrun : for_range 0 (natoms d) (classify d) (replicate (natoms d) blk)
                 = (Some tt, (modify d).2)).
  { destruct (for_range_classify d 0 (natoms d) (replicate (natoms d) blk) Hal)
      as (s' & Hrun & _); [lia | apply length_replicate |].
    unfold modify. fold (natoms d). rewrite Hrun. reflexivity. }
  replace (natoms d) with (i + (natoms d - i))%nat in Hrun at 1 by lia.
  rewrite for_range_app in Hrun.
  rewrite (bind_eval _ _ _ _ _ (labels_before_run d i Hal ltac:(lia))) in Hrun.
  destruct (for_range_classify d i (natoms d - i) (labels_before d i) Hal)
    as (s' & Hrest & _ & Hframe);
    [lia | apply labels_before_length; [exact Hal | lia] |].
  rewrite Nat.add_0_l in Hrun. rewrite Hrest in Hrun.
  injection Hrun as <-. symmetry. apply Hframe. lia.
Qed.

(** ** Which parts of the script read or write the defect property *)

Lemma blind_ret {A : Type} (a : A) : label_blind (ret a).
Proof. exists (Some a). reflexivity. Qed.

Lemma blind_load {A : Type} (arr : list A) n : label_blind (load arr n).
Proof. exists (arr !! n). reflexivity. Qed.

Lemma blind_bind {A B : Type} (m : M A) (f : A → M B) :
  label_blind m → (∀ a, label_blind (f a)) → label_blind (bind m f).
Proof.
  intros [[a|] Hm] Hf.
  - destruct (Hf a) as [r Hr]. exists r. intros s.
    unfold bind. rewrite Hm. apply Hr.
  - exists None. intros s. unfold bind. rewrite Hm. reflexivity.
Qed.

Lemma blind_or_else (a b : M bool) :
  label_blind a → label_blind b → label_blind (or_else a b).
Proof.
  intros Ha Hb. apply blind_bind; [exact Ha|].
  intros []; [apply blind_ret | exact Hb].
Qed.

Lemma blind_filter_where {A : Type} (p : A → M bool) l :
  (∀ x, label_blind (p x)) → label_blind (filter_where p l).
Proof.
  intros Hp. induction l as [|x l IH]; simpl; [apply blind_ret|].
  apply blind_bind; [apply Hp|]. intros b.
  apply blind_bind; [exact IH|]. intros r. apply blind_ret.
Qed.

Lemma blind_get_neighbors d i : label_blind (get_neighbors d i).
Proof.
  apply blind_filter_where. intros n. apply blind_or_else;
    (apply blind_bind; [apply blind_load | intros ?; apply blind_ret]).
Qed.

Lemma touches_ret {A : Type} i (a : A) : touches_only i (ret a).
Proof. intros s. split; reflexivity. Qed.

Lemma touches_load {A : Type} i (arr : list A) n : touches_only i (load arr n).
Proof. intros s. split; reflexivity. Qed.

Lemma touches_get_label i n : touches_only i (get_label n).
Proof. intros s. split; reflexivity. Qed.

Lemma touches_set_label i v : touches_only i (set_label i v).
Proof.
  intros s. unfold set_label. case_decide; simpl; [|split; reflexivity].
  split; [apply length_insert|].
  intros k Hk. apply list_lookup_insert_ne. congruence.
Qed.

Lemma touches_bind {A B : Type} i (m : M A) (f : A → M B) :
  touches_only i m → (∀ a, touches_only i (f a)) → touches_only i (bind m f).
Proof.
  intros Hm Hf s. unfold bind. specialize (Hm s).
  destruct (m s) as [[a|] s1]; simpl in Hm; [|exact Hm].
  destruct Hm as [Hlen Hk]. destruct (Hf a s1) as [Hlen' Hk'].
  split; [congruence|]. intros k Hne. rewrite Hk' by exact Hne. apply Hk, Hne.
Qed.

Lemma touches_and_then i (a b : M bool) :
  touches_only i a → touches_only i b → touches_only i (and_then a b).
Proof.
  intros Ha Hb. apply touches_bind; [exact Ha|].
  intros []; [exact Hb | apply touches_ret].
Qed.

Lemma touches_or_else i (a b : M bool) :
  touches_only i a → touches_only i b → touches_only i (or_else a b).
Proof.
  intros Ha Hb. apply touches_bind; [exact Ha|].
  intros []; [apply touches_ret | exact Hb].
Qed.

Lemma touches_filter_where {A : Type} i (p : A → M bool) l :
  (∀ x, touches_only i (p x)) → touches_only i (filter_where p l).
Proof.
  intros Hp. induction l as [|x l IH]; simpl; [apply touches_ret|].
  apply touches_bind; [apply Hp|]. intros b.
  apply touches_bind; [exact IH|]. intros r. apply touches_ret.
Qed.

Lemma touches_count_where {A : Type} i (p : A → M bool) l :
  (∀ x, touches_only i (p x)) → touches_only i (count_where p l).
Proof.
  intros Hp. unfold count_where. generalize 0.
  induction l as [|x l IH]; intros acc; simpl; [apply touches_ret|].
  apply touches_bind; [apply Hp|]. intros b. apply IH.
Qed.

(** Every piece of the script is put together from the operations above;
    this walks through its structure. *)
Ltac touches :=
  repeat first
    [ apply touches_ret | apply touches_load | apply touches_get_label
    | apply touches_set_label
    | apply touches_and_then | apply touches_or_else
    | apply touches_filter_where; intros ?
    | apply touches_count_where; intros ?
    | apply touches_bind; [|intros ?]
    | progress cbv zeta
    | match goal with |- touches_only _ (if ?b then _ else _) => destruct b end ].

Lemma touches_get_neighbors d i j : touches_only i (get_neighbors d j).
Proof. unfold get_neighbors, not_perfect. touches. Qed.

Lemma touches_is_surface d i : touches_only i (is_surface d i).
Proof.
  unfold is_surface. pose proof (touches_get_neighbors d i i).
  unfold surface_neighbor. touches; assumption.
Qed.

Lemma touches_is_dislo d i : touches_only i (is_dislo d i).
Proof.
  unfold is_dislo. pose proof (touches_get_neighbors d i i).
  unfold coord_is, coord_ge12_not14. touches; assumption.
Qed.

Lemma touches_is_vac d i : touches_only i (is_vac d i).
Proof.
  unfold is_vac. pose proof (touches_get_neighbors d i i).
  unfold coord_and_csp_gt4. touches; assumption.
Qed.

Lemma touches_is_twin d i : touches_only i (is_twin d i).
Proof.
  unfold is_twin. pose proof (touches_get_neighbors d i i).
  unfold coord_is. touches; assumption.
Qed.

Lemma touches_is_planarfault d i : touches_only i (is_planarfault d i).
Proof.
  unfold is_planarfault. pose proof (touches_get_neighbors d i i).
  unfold coord_is. touches; assumption.
Qed.

(** One turn of the loop writes at most the label of its own particle. *)
Lemma touches_classify d i : touches_only i (classify d i).
Proof.
  unfold classify.
  pose proof (touches_is_surface d i). pose proof (touches_is_dislo d i).
  pose proof (touches_is_vac d i). pose proof (touches_is_twin d i).
  pose proof (touches_is_planarfault d i).
  touches; assumption.
Qed.

(** A perfect-lattice particle is written [blk] by its own turn. *)
Lemma classify_perfect d i s :
  atom_cna d !! i = Some 3 → atom_coord d !! i = Some 14 →
  (i < length s)%nat →
  classify d i s = (Some tt, <[i:=blk]> s).
Proof.
  intros Hc Hk Hi. unfold classify, and_then, bind, load, ret.
  rewrite Hc, Hk. simpl. apply set_label_eval, Hi.
Qed.

(** A label [blk] of a perfect-lattice particle survives any stretch of
    the loop, whether the stretch completes or raises. *)
Lemma for_range_keeps_perfect d i a n s :
  atom_cna d !! i = Some 3 → atom_coord d !! i = Some 14 →
  s !! i = Some blk →
  (for_range a n (classify d) s).2 !! i = Some blk.
Proof.
  intros Hc Hk. revert a s. induction n as [|n IH]; intros a s Hs; simpl.
  - exact Hs.
  - assert (Hstep : (classify d a s).2 !! i = Some blk).
    { destruct (decide (a = i)) as [->|Hne].
      - rewrite (classify_perfect d i s Hc Hk) by (eapply lookup_lt_Some; exact Hs).
        simpl. apply list_lookup_insert_eq. eapply lookup_lt_Some; exact Hs.
      - destruct (touches_classify d a s) as [_ Hframe].
        rewrite Hframe by congruence. exact Hs. }
    unfold bind. destruct (classify d a s) as [[[]|] s1]; simpl in *.
    + apply IH, Hstep.
    + exact Hstep.
Qed.

(** ** Bridges between the readings and the script's results *)

Lemma coordination_lookup d i k :
  atom_coord d !! i = Some k → Spec.coordination d i = k.
Proof. unfold Spec.coordination. intros ->. reflexivity. Qed.

Lemma structureType_lookup d i c :
  atom_cna d !! i = Some c → Spec.structureType d i = c.
Proof. unfold Spec.structureType. intros ->. reflexivity. Qed.

Lemma modify_at d i :
  aligned d = true → (i < natoms d)%nat →
  (modify d).2 !! i = Some (Spec.label d (labels_before d i) i).
Proof. intros Hal Hi. apply (modify_label d i Hal Hi). Qed.

Lemma is_surface_result d i s :
  aligned d = true → (i < natoms d)%nat → length s = natoms d →
  (is_surface d i s).1 = Some (Spec.surface d s i).
Proof.
  intros Hal Hi Hs. rewrite (is_surface_eval d Hal i s Hi Hs).
  destruct (Spec.surface d s i); reflexivity.
Qed.

Lemma is_dislo_result d i s :
  aligned d = true → (i < natoms d)%nat → length s = natoms d →
  (is_dislo d i s).1 = Some (Spec.dislocation d i).
Proof.
  intros Hal Hi Hs. rewrite (is_dislo_eval d Hal i s Hi Hs).
  destruct (Spec.dislocation d i); reflexivity.
Qed.

Lemma is_vac_result d i s :
  aligned d = true → (i < natoms d)%nat → length s = natoms d →
  (is_vac d i s).1 = Some (Spec.vacancy d i).
Proof.
  intros Hal Hi Hs. rewrite (is_vac_eval d Hal i s Hi Hs).
  destruct (Spec.vacancy d i); reflexivity.
Qed.

(** The seven defect types are distinct, and the rule evaluator yields
    nothing else. *)
Lemma label_cases d s i :
  In (Spec.label d s i) [blk; srf; dsl; vcn; twn; plf; els].
Proof.
  unfold Spec.label.
  repeat match goal with |- context [if ?b then _ else _] => destruct b end;
    simpl; auto 10.
Qed.

Lemma countWhere_filter p q l :
  Spec.countWhere q (List.filter p l) = Spec.countWhere (λ n, p n && q n) l.
Proof.
  induction l as [|x l IH]; [reflexivity|].
  simpl List.filter. destruct (p x) eqn:Hp.
  - rewrite !countWhere_cons, Hp, IH. reflexivity.
  - rewrite countWhere_cons, Hp, IH. simpl. reflexivity.
Qed.

(** A BCC-like particle matches neither the surface nor the planar-fault
    predicate. *)
Lemma bcc_like_label d s i :
  Spec.structureType d i = 3 →
  In (Spec.label d s i) [blk; dsl; vcn; twn; els].
Proof.
  intros Hc. unfold Spec.label, Spec.surface, Spec.planar_fault, Spec.BCC_like.
  rewrite Hc. simpl.
  repeat match goal with |- context [if ?b then _ else _] => destruct b end;
    simpl; auto 10.
Qed.

Lemma modify_completes d :
  aligned d = true →
  (modify d).1 = Some tt ∧ length (modify d).2 = natoms d.
Proof.
  intros Hal.
  destruct (for_range_classify d 0 (natoms d) (replicate (natoms d) blk) Hal)
    as (s' & Hrun & Hlen & _); [lia | apply length_replicate |].
  unfold modify. fold (natoms d). rewrite Hrun. split; [reflexivity | exact Hlen].
Qed.

(** The rule evaluator says Surface exactly when the particle is not
    perfect-lattice and the surface predicate holds. *)
Lemma label_srf_iff d s i :
  Spec.label d s i = srf ↔
  Spec.perfect_lattice d i = false ∧ Spec.surface d s i = true.
Proof.
  unfold Spec.label.
  destruct (Spec.perfect_lattice d i); [split; [discriminate | intros [? _]; discriminate]|].
  destruct (Spec.surface d s i); [split; [split; reflexivity | reflexivity]|].
  split; [|intros [_ ?]; discriminate].
  repeat match goal with |- context [if ?b then _ else _] => destruct b end;
    discriminate.
Qed.

(** Likewise for Vacancy. *)
Lemma label_vcn_iff d s i :
  Spec.label d s i = vcn ↔
  Spec.perfect_lattice d i = false ∧ Spec.surface d s i = false ∧
  Spec.dislocation d i = false ∧ Spec.vacancy d i = true.
Proof.
  unfold Spec.label.
  destruct (Spec.perfect_lattice d i); [split; [discriminate | intros [? _]; discriminate]|].
  destruct (Spec.surface d s i); [split; [discriminate | intros (_ & ? & _); discriminate]|].
  destruct (Spec.dislocation d i);
    [split; [discriminate | intros (_ & _ & ? & _); discriminate]|].
  destruct (Spec.vacancy d i); [split; [repeat split | reflexivity]|].
  split; [|intros (_ & _ & _ & ?); discriminate].
  repeat match goal with |- context [if ?b then _ else _] => destruct b end;
    discriminate.
Qed.

(** The surface predicate looks at the defect property only to see which
    filtered neighbours are labelled Surface. *)
Lemma surface_ext d s1 s2 i :
  (∀ n, In n (Spec.NeighborSet d i) →
        (s1 !! n = Some srf ↔ s2 !! n = Some srf)) →
  Spec.surface d s1 i = Spec.surface d s2 i.
Proof.
  intros H. unfold Spec.surface. do 3 f_equal.
  apply countWhere_ext. intros n Hn. unfold Spec.surface_qualifying.
  f_equal. apply bool_decide_ext, H, Hn.
Qed.

(** * The claims *)

(** C1: a particle whose structure type is BCC-like (3) and whose
    coordination is 14 ends the pass with the label Bulk, whatever its
    centrosymmetry and whatever its neighbours are: the perfect-lattice
    test comes before every defect predicate and no other turn of the loop
    writes its label.  This holds for every snapshot, and on an aligned
    snapshot the pass completes. *)
Theorem perfect_lattice_is_bulk d i :
  atom_cna d !! i = Some 3 → atom_coord d !! i = Some 14 →
  (modify d).2 !! i = Some blk ∧ (aligned d = true → (modify d).1 = Some tt).
Proof.
  intros Hc Hk.
  assert (Hi : (i < natoms d)%nat) by (eapply lookup_lt_Some; exact Hk).
  split.
  - unfold modify. apply for_range_keeps_perfect; [exact Hc | exact Hk |].
    apply lookup_replicate_2. exact Hi.
  - intros Hal. apply (modify_label d i Hal Hi).
Qed.

Lemma perfect_lattice_is_bulk_witness :
  (modify vacancy_shell_in_bulk).2 !! 5%nat = Some blk ∧
  (modify vacancy_shell_in_bulk).1 = Some tt.
Proof.
  destruct (perfect_lattice_is_bulk vacancy_shell_in_bulk 5 eq_refl eq_refl)
    as [Hb Hrun].
  split; [exact Hb | exact (Hrun eq_refl)].
Defined.

(** C2, as stated, fails: the particle with coordination 14,
    centrosymmetry 9.0 and the BCC tag is labelled Bulk, not Twin. *)
Lemma hot_bcc_atom_is_not_twin :
  atom_coord hot_bcc_atom !! 0%nat = Some 14 ∧
  atom_csp hot_bcc_atom !! 0%nat = Some 9%float ∧
  atom_cna hot_bcc_atom !! 0%nat = Some 3 ∧
  modify hot_bcc_atom = (Some tt, [blk]) ∧
  (modify hot_bcc_atom).2 !! 0%nat ≠ Some twn.
Proof. vm_compute. repeat split; congruence. Qed.

(** C2, amended: a particle with coordination 14 and centrosymmetry 9.0 is
    labelled Bulk when its structure type is BCC-like; it is labelled Twin,
    by the unconditional rule of [is_twin] (centrosymmetry above 8 at
    coordination 14), exactly when it is not BCC-like and neither
    [is_surface] nor [is_dislo] matches it. *)
Theorem coord14_csp9_label d i :
  aligned d = true → (i < natoms d)%nat →
  Spec.coordination d i = 14 → Spec.centrosymmetry d i = 9%float →
  (Spec.structureType d i = 3 → (modify d).2 !! i = Some blk) ∧
  ((modify d).2 !! i = Some twn ↔
   Spec.structureType d i ≠ 3 ∧
   (is_surface d i (labels_before d i)).1 = Some false ∧
   (is_dislo d i (labels_before d i)).1 = Some false).
Proof.
  intros Hal Hi Hk Hx.
  pose proof (labels_before_length d i Hal ltac:(lia)) as Hlen.
  rewrite (modify_at d i Hal Hi).
  rewrite (is_surface_result d i _ Hal Hi Hlen), (is_dislo_result d i _ Hal Hi Hlen).
  unfold Spec.label, Spec.perfect_lattice, Spec.BCC_like. rewrite Hk. simpl.
  destruct (Z.eqb_spec (Spec.structureType d i) 3) as [Hc|Hc]; simpl.
  - split; [reflexivity|].
    split; [discriminate | intros [Hne _]; contradiction].
  - split; [intros ?; contradiction|].
    assert (Hv : Spec.vacancy d i = false)
      by (unfold Spec.vacancy; rewrite Hk; reflexivity).
    assert (Ht : Spec.twin d i = true)
      by (unfold Spec.twin; rewrite Hk, Hx; reflexivity).
    rewrite Hv, Ht.
    destruct (Spec.surface d (labels_before d i) i);
      [split; [discriminate | intros (_ & ? & _); discriminate]|].
    destruct (Spec.dislocation d i);
      [split; [discriminate | intros (_ & _ & ?); discriminate]|].
    split; [intros _; split; [exact Hc | split; reflexivity] | reflexivity].
Qed.

Lemma coord14_csp9_label_witness :
  (modify hot_other_atom).2 !! 0%nat = Some twn.
Proof.
  destruct (coord14_csp9_label hot_other_atom 0 eq_refl
              ltac:(vm_compute; lia) eq_refl eq_refl) as [_ Hiff].
  apply Hiff. split; [vm_compute; congruence | split; reflexivity].
Defined.

(** C9: a particle whose structure type is BCC-like is never labelled
    Surface and never Planar Fault; its label is one of Bulk, Dislocation,
    Vacancy, Twin and Unidentified. *)
Theorem bcc_like_never_surface_nor_planar d i :
  aligned d = true → (i < natoms d)%nat →
  Spec.structureType d i = 3 →
  (∃ l, (modify d).2 !! i = Some l ∧ In l [blk; dsl; vcn; twn; els]) ∧
  (modify d).2 !! i ≠ Some srf ∧
  (modify d).2 !! i ≠ Some plf.
Proof.
  intros Hal Hi Hc. rewrite (modify_at d i Hal Hi).
  pose proof (bcc_like_label d (labels_before d i) i Hc) as Hl.
  split; [eexists; split; [reflexivity | exact Hl]|].
  simpl in Hl.
  split; intros [= Heq]; rewrite Heq in Hl;
    unfold blk, srf, dsl, vcn, twn, plf, els in Hl; lia.
Qed.

Lemma bcc_like_never_surface_nor_planar_witness :
  (∃ l, (modify vacancy_shell_in_bulk).2 !! 0%nat = Some l ∧
        In l [blk; dsl; vcn; twn; els]) ∧
  (modify vacancy_shell_in_bulk).2 !! 0%nat ≠ Some srf ∧
  (modify vacancy_shell_in_bulk).2 !! 0%nat ≠ Some plf.
Proof.
  apply (bcc_like_never_surface_nor_planar vacancy_shell_in_bulk 0 eq_refl);
    [vm_compute; lia | reflexivity].
Defined.

(** C8: a particle that is not perfect-lattice, that [is_surface] does not
    match, and that both [is_dislo] and [is_vac] match, is labelled
    Dislocation: the predicates are tried in the order surface,
    dislocation, vacancy, twin, planar fault and the first success
    decides. *)
Theorem dislocation_before_vacancy d i :
  aligned d = true → (i < natoms d)%nat →
  Spec.perfect_lattice d i = false →
  (is_surface d i (labels_before d i)).1 = Some false →
  (is_dislo d i (labels_before d i)).1 = Some true →
  (is_vac d i (labels_before d i)).1 = Some true →
  (modify d).2 !! i = Some dsl.
Proof.
  intros Hal Hi Hp.
  pose proof (labels_before_length d i Hal ltac:(lia)) as Hlen.
  rewrite (is_surface_result d i _ Hal Hi Hlen), (is_dislo_result d i _ Hal Hi Hlen).
  intros [= Hs] [= Hd] _.
  rewrite (modify_at d i Hal Hi). unfold Spec.label. rewrite Hp, Hs, Hd.
  reflexivity.
Qed.

Lemma dislocation_before_vacancy_witness :
  (modify vacancy_shell_in_bulk).2 !! 0%nat = Some dsl.
Proof.
  apply (dislocation_before_vacancy vacancy_shell_in_bulk 0 eq_refl);
    [vm_compute; lia | reflexivity | reflexivity | reflexivity | reflexivity].
Defined.

(** C10: in the branch of [is_vac] for coordination 13 and centrosymmetry
    below 1 the neighbour counts are compared by equality: with exactly
    five filtered neighbours of coordination 13 and centrosymmetry above 4
    (whatever the count for coordination 12) [is_vac] returns False and
    writes nothing, and the particle does not end up labelled Vacancy. *)
Theorem mono_vacancy_exact_counts d i :
  aligned d = true → (i < natoms d)%nat →
  Spec.coordination d i = 13 →
  PrimFloat.ltb (Spec.centrosymmetry d i) 1 = true →
  Spec.countWhere (Spec.strained d 13) (Spec.NeighborSet d i) = 5 →
  (∀ s, length s = natoms d → is_vac d i s = (Some false, s)) ∧
  (modify d).2 !! i ≠ Some vcn.
Proof.
  intros Hal Hi Hk Hx H5.
  assert (Hv : Spec.vacancy d i = false).
  { unfold Spec.vacancy. rewrite Hk, Hx, H5. reflexivity. }
  split.
  - intros s Hs. rewrite (is_vac_eval d Hal i s Hi Hs), Hv. reflexivity.
  - rewrite (modify_at d i Hal Hi). unfold Spec.label. rewrite Hv.
    repeat match goal with |- context [if ?b then _ else _] => destruct b end;
      discriminate.
Qed.

Lemma mono_vacancy_exact_counts_witness :
  (∀ s, length s = natoms five_strained_neighbors →
        is_vac five_strained_neighbors 0 s = (Some false, s)) ∧
  (modify five_strained_neighbors).2 !! 0%nat ≠ Some vcn.
Proof.
  apply (mono_vacancy_exact_counts five_strained_neighbors 0 eq_refl);
    [vm_compute; lia | reflexivity | reflexivity | reflexivity].
Defined.

(** C5: a particle that is not BCC-like is labelled Surface when its
    coordination is at most 11; with a coordination above 11 it is labelled
    Surface exactly when at least 4 of its filtered neighbours are
    surface-qualifying (labelled Surface when the loop reaches the
    particle, or not BCC-like with coordination at most 11); a BCC-like
    particle is never labelled Surface. *)
Theorem surface_rule d i :
  aligned d = true → (i < natoms d)%nat →
  (Spec.structureType d i ≠ 3 → Spec.coordination d i ≤ 11 →
   (modify d).2 !! i = Some srf) ∧
  (Spec.structureType d i ≠ 3 → 11 < Spec.coordination d i →
   ((modify d).2 !! i = Some srf ↔
    4 ≤ Spec.countWhere (Spec.surface_qualifying d (labels_before d i))
                        (Spec.NeighborSet d i))) ∧
  (Spec.structureType d i = 3 → (modify d).2 !! i ≠ Some srf).
Proof.
  intros Hal Hi. rewrite (modify_at d i Hal Hi).
  assert (Hiff : ∀ l, Some l = Some srf ↔ l = srf)
    by (intros l; split; [intros [= ->]; reflexivity | intros ->; reflexivity]).
  rewrite Hiff, label_srf_iff.
  unfold Spec.perfect_lattice, Spec.surface, Spec.BCC_like.
  destruct (Z.eqb_spec (Spec.structureType d i) 3) as [Hc|Hc]; simpl.
  - split; [intros ?; contradiction|]. split; [intros ?; contradiction|].
    intros _ [_ ?]. discriminate.
  - split; [|split; [|intros ?; contradiction]].
    + intros _ Hk. apply Z.leb_le in Hk. rewrite Hk. split; reflexivity.
    + intros _ Hk. apply Z.leb_gt in Hk. rewrite Hk. simpl.
      rewrite Z.leb_le. tauto.
Qed.

Lemma surface_rule_witness :
  (modify surface_chain).2 !! 8%nat = Some srf ↔
  4 ≤ Spec.countWhere
        (Spec.surface_qualifying surface_chain (labels_before surface_chain 8))
        (Spec.NeighborSet surface_chain 8).
Proof.
  apply (surface_rule surface_chain 8 eq_refl ltac:(vm_compute; lia));
    vm_compute; congruence.
Defined.

(** C7: [get_neighbors] keeps exactly the in-cutoff neighbours whose
    (structure type, coordination) pair is not (BCC-like, 14), in the order
    of the neighbour finder; it neither writes nor reads the defect
    property, so its result is the same whatever labels have been written
    when it is called. *)
Theorem neighbor_filter_ignores_labels d i :
  (∀ s, (get_neighbors d i s).2 = s) ∧
  (∀ s1 s2, (get_neighbors d i s1).1 = (get_neighbors d i s2).1) ∧
  (aligned d = true → (i < natoms d)%nat →
   ∃ ns,
     (∀ s, get_neighbors d i s = (Some ns, s)) ∧
     ns = List.filter
            (λ n, negb ((Spec.structureType d n =? 3) && (Spec.coordination d n =? 14)))
            (neighbor_finder d i) ∧
     (∀ n, In n ns ↔
           In n (neighbor_finder d i) ∧
           ¬ (Spec.structureType d n = 3 ∧ Spec.coordination d n = 14))).
Proof.
  destruct (blind_get_neighbors d i) as [r Hr].
  split; [intros s; rewrite Hr; reflexivity|].
  split; [intros s1 s2; rewrite !Hr; reflexivity|].
  intros Hal Hi. exists (Spec.NeighborSet d i).
  split; [intros s; apply get_neighbors_eval; assumption|].
  split; [reflexivity|].
  intros n. rewrite NeighborSet_In.
  unfold Spec.perfect_lattice, Spec.BCC_like.
  rewrite andb_false_iff, !Z.eqb_neq. intuition lia.
Qed.

Lemma neighbor_filter_ignores_labels_witness :
  ∃ ns,
    (∀ s, get_neighbors vacancy_shell_distorted 0 s = (Some ns, s)) ∧
    ns = [1; 2; 3; 4; 5; 6; 7; 8]%nat ∧
    (∀ n, In n ns ↔
          In n (neighbor_finder vacancy_shell_distorted 0) ∧
          ¬ (Spec.structureType vacancy_shell_distorted n = 3 ∧
             Spec.coordination vacancy_shell_distorted n = 14)).
Proof.
  apply (neighbor_filter_ignores_labels vacancy_shell_distorted 0);
    [reflexivity | vm_compute; lia].
Defined.

(** C3, as stated, fails: particle 8 of [surface_chain] is labelled
    Surface on the defect property the loop has produced when it reaches
    the particle, and Dislocation on a defect property that differs from it
    only in the labels of the particles 4..7; numbering the same particles
    the other way round changes the label the pass gives it. *)
Lemma neighbor_labels_change_outcome :
  labels_before surface_chain 8 = [srf; srf; srf; srf; srf; srf; srf; srf; blk] ∧
  (classify surface_chain 8 (labels_before surface_chain 8)).2 !! 8%nat = Some srf ∧
  (classify surface_chain 8 [srf; srf; srf; srf; blk; blk; blk; blk; blk]).2 !! 8%nat
    = Some dsl ∧
  (modify surface_chain).2 !! 8%nat = Some srf ∧
  (modify surface_chain_reversed).2 !! 0%nat = Some dsl.
Proof. vm_compute. repeat split. Qed.

(** C3, amended: the label written for particle [i] depends on the
    descriptor arrays, the neighbour sets and, of the labels of other
    particles, only on which neighbours of [i] are labelled Surface when
    [i] is evaluated: on two defect properties that agree on that, the turn
    for [i] has the same outcome and writes the same label. *)
Theorem label_depends_on_surface_neighbors d i s1 s2 :
  aligned d = true → (i < natoms d)%nat →
  length s1 = natoms d → length s2 = natoms d →
  (∀ n, In n (neighbor_finder d i) →
        (s1 !! n = Some srf ↔ s2 !! n = Some srf)) →
  (classify d i s1).1 = (classify d i s2).1 ∧
  (classify d i s1).2 !! i = (classify d i s2).2 !! i.
Proof.
  intros Hal Hi Hs1 Hs2 Hag.
  rewrite (classify_eval d Hal i s1 Hi Hs1), (classify_eval d Hal i s2 Hi Hs2).
  simpl. split; [reflexivity|].
  rewrite !list_lookup_insert_eq by lia.
  unfold Spec.label.
  rewrite (surface_ext d s1 s2 i); [reflexivity|].
  intros n [Hn _]%NeighborSet_In. apply Hag, Hn.
Qed.

Lemma label_depends_on_surface_neighbors_witness :
  (classify surface_chain 8 [srf; srf; srf; srf; srf; srf; srf; srf; blk]).1
  = (classify surface_chain 8 [blk; blk; blk; blk; srf; srf; srf; srf; blk]).1 ∧
  (classify surface_chain 8 [srf; srf; srf; srf; srf; srf; srf; srf; blk]).2 !! 8%nat
  = (classify surface_chain 8 [blk; blk; blk; blk; srf; srf; srf; srf; blk]).2 !! 8%nat.
Proof.
  apply (label_depends_on_surface_neighbors surface_chain 8 _ _ eq_refl);
    [vm_compute; lia | reflexivity | reflexivity |].
  intros n Hn. vm_compute in Hn.
  destruct Hn as [<-|[<-|[<-|[<-|[]]]]]; vm_compute; tauto.
Defined.

(** C4, as stated, fails: nothing is checked before the loop.  A negative
    coordination and an unknown structure tag are classified like any
    other value, the BCC-tagged particle falling through to Unidentified;
    with arrays of different lengths the pass raises only when it reaches
    the missing entry, after it has labelled particle 0. *)
Lemma invalid_input_is_classified :
  atom_coord out_of_domain = [-1; -1] ∧
  atom_cna out_of_domain = [3; 7] ∧
  modify out_of_domain = (Some tt, [els; srf]) ∧
  length (atom_cna ragged) ≠ length (atom_coord ragged) ∧
  modify ragged = (None, [srf; blk]).
Proof. vm_compute. repeat split. lia. Qed.

(** C4, amended: the pass does not validate descriptor values.  On every
    aligned snapshot it completes and labels every particle with one of
    the seven defect types, whatever the coordination values and structure
    tags are; a particle that is not BCC-like with a coordination of at
    most 11 (a negative one included) is labelled Surface, and a BCC-like
    particle with a coordination below 12 (a negative one included) is
    labelled Unidentified. *)
Theorem descriptors_are_not_validated d :
  aligned d = true →
  (modify d).1 = Some tt ∧
  length (modify d).2 = natoms d ∧
  ∀ i, (i < natoms d)%nat →
    (∃ l, (modify d).2 !! i = Some l ∧ In l [blk; srf; dsl; vcn; twn; plf; els]) ∧
    (Spec.structureType d i ≠ 3 → Spec.coordination d i ≤ 11 →
     (modify d).2 !! i = Some srf) ∧
    (Spec.structureType d i = 3 → Spec.coordination d i < 12 →
     (modify d).2 !! i = Some els).
Proof.
  intros Hal. destruct (modify_completes d Hal) as [Hrun Hlen].
  split; [exact Hrun | split; [exact Hlen|]].
  intros i Hi. rewrite (modify_at d i Hal Hi).
  split; [eexists; split; [reflexivity | apply label_cases]|].
  unfold Spec.label, Spec.perfect_lattice, Spec.surface, Spec.BCC_like.
  split.
  - intros Hc Hk. apply Z.eqb_neq in Hc. apply Z.leb_le in Hk.
    rewrite Hc, Hk. reflexivity.
  - intros Hc Hk. rewrite Hc. simpl.
    unfold Spec.dislocation, Spec.vacancy, Spec.twin, Spec.planar_fault, Spec.BCC_like.
    rewrite Hc.
    assert (H14 : (Spec.coordination d i =? 14) = false) by (apply Z.eqb_neq; lia).
    assert (H13 : (Spec.coordination d i =? 13) = false) by (apply Z.eqb_neq; lia).
    assert (H12 : (Spec.coordination d i =? 12) = false) by (apply Z.eqb_neq; lia).
    assert (Hge : (12 <=? Spec.coordination d i) = false) by (apply Z.leb_gt; lia).
    rewrite H14, H13, H12, Hge. reflexivity.
Qed.

Lemma descriptors_are_not_validated_witness :
  (modify out_of_domain).1 = Some tt ∧
  (modify out_of_domain).2 !! 0%nat = Some els ∧
  (modify out_of_domain).2 !! 1%nat = Some srf.
Proof.
  destruct (descriptors_are_not_validated out_of_domain eq_refl)
    as (Hrun & _ & Hall).
  split; [exact Hrun|]. split.
  - apply (Hall 0%nat); [vm_compute; lia | reflexivity | reflexivity].
  - apply (Hall 1%nat); [vm_compute; lia | vm_compute; congruence
                        | vm_compute; congruence].
Defined.

(** C6, as stated, fails in its example: particle 0 of
    [vacancy_shell_in_bulk] has coordination 13 and centrosymmetry 0.5,
    four neighbours of coordination 13 and centrosymmetry 5.0 and all
    remaining neighbours of coordination 14, and is labelled Dislocation:
    [is_dislo] is tried before [is_vac] and matches it. *)
Lemma vacancy_shell_in_bulk_is_dislocation :
  atom_coord vacancy_shell_in_bulk !! 0%nat = Some 13 ∧
  atom_csp vacancy_shell_in_bulk !! 0%nat = Some 0.5%float ∧
  neighbor_finder vacancy_shell_in_bulk 0 = [1; 2; 3; 4; 5; 6]%nat ∧
  (∀ n, In n [1; 2; 3; 4]%nat →
        atom_coord vacancy_shell_in_bulk !! n = Some 13 ∧
        atom_csp vacancy_shell_in_bulk !! n = Some 5%float) ∧
  (∀ n, In n [5; 6]%nat → atom_coord vacancy_shell_in_bulk !! n = Some 14) ∧
  (modify vacancy_shell_in_bulk).2 !! 0%nat = Some dsl ∧
  (modify vacancy_shell_in_bulk).2 !! 0%nat ≠ Some vcn.
Proof.
  repeat split; try reflexivity; try (vm_compute; congruence);
    simpl in *; intuition subst; reflexivity.
Qed.

(** C6, amended: for a particle with coordination 13 and centrosymmetry
    below 1 that reaches the vacancy rule (neither [is_surface] nor
    [is_dislo] matches it) the label is Vacancy exactly when 4 of its
    filtered neighbours have coordination 13 and centrosymmetry above 4, or
    2 have and 2 more have coordination 12 and centrosymmetry above 4; in
    particular such a particle with centrosymmetry 0.5, 4 neighbours of
    coordination 13 and centrosymmetry 5.0 and all remaining neighbours of
    coordination 14 is labelled Vacancy when it reaches the vacancy
    rule. *)
Theorem vacancy_rule_when_reached d i :
  aligned d = true → (i < natoms d)%nat →
  Spec.coordination d i = 13 →
  PrimFloat.ltb (Spec.centrosymmetry d i) 1 = true →
  (is_surface d i (labels_before d i)).1 = Some false →
  (is_dislo d i (labels_before d i)).1 = Some false →
  ((modify d).2 !! i = Some vcn ↔
   Spec.countWhere (Spec.strained d 13) (Spec.NeighborSet d i) = 4 ∨
   (Spec.countWhere (Spec.strained d 13) (Spec.NeighborSet d i) = 2 ∧
    Spec.countWhere (Spec.strained d 12) (Spec.NeighborSet d i) = 2)) ∧
  (Spec.centrosymmetry d i = 0.5%float →
   (∀ n, In n (neighbor_finder d i) →
         (Spec.coordination d n = 13 ∧ Spec.centrosymmetry d n = 5%float) ∨
         Spec.coordination d n = 14) →
   Spec.countWhere (λ n, Spec.coordination d n =? 13) (neighbor_finder d i) = 4 →
   (modify d).2 !! i = Some vcn).
Proof.
  intros Hal Hi Hk Hx.
  pose proof (labels_before_length d i Hal ltac:(lia)) as Hlen.
  rewrite (is_surface_result d i _ Hal Hi Hlen), (is_dislo_result d i _ Hal Hi Hlen).
  intros [= Hs] [= Hd].
  assert (Hiff : (modify d).2 !! i = Some vcn ↔
            Spec.countWhere (Spec.strained d 13) (Spec.NeighborSet d i) = 4 ∨
            (Spec.countWhere (Spec.strained d 13) (Spec.NeighborSet d i) = 2 ∧
             Spec.countWhere (Spec.strained d 12) (Spec.NeighborSet d i) = 2)).
  { rewrite (modify_at d i Hal Hi).
    assert (Hsome : ∀ l, Some l = Some vcn ↔ l = vcn)
      by (intros l; split; [intros [= ->]; reflexivity | intros ->; reflexivity]).
    rewrite Hsome, label_vcn_iff, Hs, Hd.
    unfold Spec.perfect_lattice, Spec.vacancy. rewrite Hk, Hx. simpl.
    rewrite andb_false_r, orb_true_iff, andb_true_iff, !Z.eqb_eq. tauto. }
  split; [exact Hiff|].
  intros _ Hnb H4. apply Hiff. left.
  unfold Spec.NeighborSet. rewrite countWhere_filter, <- H4.
  apply countWhere_ext. intros n Hn.
  unfold Spec.strained, Spec.perfect_lattice.
  destruct (Hnb n Hn) as [[-> ->] | ->]; simpl.
  - rewrite andb_false_r. reflexivity.
  - apply andb_false_r.
Qed.

Lemma vacancy_rule_when_reached_witness :
  (modify vacancy_shell_distorted).2 !! 0%nat = Some vcn.
Proof.
  apply (vacancy_rule_when_reached vacancy_shell_distorted 0 eq_refl);
    [vm_compute; lia | reflexivity | reflexivity | reflexivity | reflexivity
    | reflexivity | | reflexivity].
  intros n Hn. vm_compute in Hn.
  destruct Hn as [<-|[<-|[<-|[<-|[<-|[<-|[<-|[<-|[]]]]]]]]];
    vm_compute; auto.
Defined.

(** * Further properties of the script *)

(** ** More on counting and on the rule evaluator *)

Lemma countWhere_nil q : Spec.countWhere q [] = 0.
Proof. reflexivity. Qed.

Lemma countWhere_add_le q1 q2 q3 l :
  (∀ x, In x l → Z.b2z (q1 x) + Z.b2z (q2 x) ≤ Z.b2z (q3 x)) →
  Spec.countWhere q1 l + Spec.countWhere q2 l ≤ Spec.countWhere q3 l.
Proof.
  induction l as [|x l IH]; intros H; [rewrite !countWhere_nil; lia|].
  rewrite !countWhere_cons.
  pose proof (H x (or_introl eq_refl)).
  pose proof (IH (λ y Hy, H y (or_intror Hy))). lia.
Qed.

Lemma countWhere_mono q1 q2 l :
  (∀ x, In x l → q1 x = true → q2 x = true) →
  Spec.countWhere q1 l ≤ Spec.countWhere q2 l.
Proof.
  intros H.
  pose proof (countWhere_add_le q1 (λ _, false) q2 l) as Hle.
  assert (H0 : Spec.countWhere (λ _ : nat, false) l = 0).
  { clear. induction l as [|x l IH]; [reflexivity|].
    rewrite countWhere_cons, IH. reflexivity. }
  rewrite H0 in Hle. rewrite <- (Z.add_0_r (Spec.countWhere q1 l)).
  apply Hle. intros x Hx. specialize (H x Hx).
  destruct (q1 x); simpl; [rewrite H by reflexivity; simpl; lia|].
  destruct (q2 x); simpl; lia.
Qed.

Lemma countWhere_nonneg q l : 0 ≤ Spec.countWhere q l.
Proof. unfold Spec.countWhere. lia. Qed.

Lemma countWhere_le_length q l : Spec.countWhere q l ≤ Z.of_nat (length l).
Proof.
  pose proof (countWhere_complement q l).
  pose proof (countWhere_nonneg (λ n, negb (q n)) l). lia.
Qed.

Lemma NeighborSet_length d i :
  (length (Spec.NeighborSet d i) ≤ length (neighbor_finder d i))%nat.
Proof. unfold Spec.NeighborSet. apply List.filter_length_le. Qed.

(** The filtered neighbours of coordination 14 are the in-cutoff
    neighbours of coordination 14 that are not BCC-like. *)
Lemma count14_NeighborSet d i :
  Spec.countWhere (λ n, Spec.coordination d n =? 14) (Spec.NeighborSet d i)
  = Spec.countWhere
      (λ n, (Spec.coordination d n =? 14) && negb (Spec.structureType d n =? 3))
      (neighbor_finder d i).
Proof.
  unfold Spec.NeighborSet. rewrite countWhere_filter.
  apply countWhere_ext. intros n _.
  unfold Spec.perfect_lattice, Spec.BCC_like.
  destruct (Spec.coordination d n =? 14), (Spec.structureType d n =? 3); reflexivity.
Qed.

(** Which label the rule evaluator gives, read backwards. *)
Lemma label_shape d s i :
  (Spec.label d s i = blk ↔ Spec.perfect_lattice d i = true) ∧
  (Spec.label d s i = dsl ↔
   Spec.perfect_lattice d i = false ∧ Spec.surface d s i = false ∧
   Spec.dislocation d i = true) ∧
  (Spec.label d s i = twn ↔
   Spec.perfect_lattice d i = false ∧ Spec.surface d s i = false ∧
   Spec.dislocation d i = false ∧ Spec.vacancy d i = false ∧
   Spec.twin d i = true) ∧
  (Spec.label d s i = plf ↔
   Spec.perfect_lattice d i = false ∧ Spec.surface d s i = false ∧
   Spec.dislocation d i = false ∧ Spec.vacancy d i = false ∧
   Spec.twin d i = false ∧ Spec.planar_fault d i = true).
Proof.
  unfold Spec.label.
  destruct (Spec.perfect_lattice d i), (Spec.surface d s i),
    (Spec.dislocation d i), (Spec.vacancy d i), (Spec.twin d i),
    (Spec.planar_fault d i);
    repeat split; intros; try discriminate; try reflexivity;
    repeat match goal with H : _ ∧ _ |- _ => destruct H end; discriminate.
Qed.

Lemma Some_inj_iff (l v : Z) : Some l = Some v ↔ l = v.
Proof. split; [intros [= ->]; reflexivity | intros ->; reflexivity]. Qed.

(** ** What each label tells about the particle *)

(** X1: on an aligned snapshot a particle ends the pass labelled Bulk
    exactly when its structure type is BCC-like and its coordination is
    14: every other branch of the loop writes another defect type. *)
Theorem bulk_iff_perfect_lattice d i :
  aligned d = true → (i < natoms d)%nat →
  ((modify d).2 !! i = Some blk ↔
   Spec.structureType d i = 3 ∧ Spec.coordination d i = 14).
Proof.
  intros Hal Hi. rewrite (modify_at d i Hal Hi), Some_inj_iff.
  destruct (label_shape d (labels_before d i) i) as [-> _].
  unfold Spec.perfect_lattice, Spec.BCC_like.
  rewrite andb_true_iff, !Z.eqb_eq. reflexivity.
Qed.

Lemma bulk_iff_perfect_lattice_witness :
  (modify bcc_row).2 !! 1%nat = Some blk ↔
  Spec.structureType bcc_row 1 = 3 ∧ Spec.coordination bcc_row 1 = 14.
Proof.
  apply (bulk_iff_perfect_lattice bcc_row 1 eq_refl). vm_compute; lia.
Defined.

(** X2: when the loop reaches particle [i], particle [n] carries the
    label Surface exactly when its turn has already come ([n < i]) and
    Surface is its label at the end of the pass: a written label is never
    changed, and a particle not yet reached still carries [blk]. *)
Theorem visible_surface_labels d i n :
  aligned d = true → (i ≤ natoms d)%nat → (n < natoms d)%nat →
  (labels_before d i !! n = Some srf ↔
   (n < i)%nat ∧ (modify d).2 !! n = Some srf).
Proof.
  intros Hal Hi Hn. destruct (Nat.lt_ge_cases n i) as [Hlt|Hge].
  - rewrite (labels_before_earlier d i n Hal) by lia. tauto.
  - rewrite (labels_before_later d i n Hal) by lia.
    split; [discriminate | lia].
Qed.

Lemma visible_surface_labels_witness :
  (labels_before surface_chain 8 !! 4%nat = Some srf ↔
   (4 < 8)%nat ∧ (modify surface_chain).2 !! 4%nat = Some srf) ∧
  (labels_before surface_chain 2 !! 4%nat = Some srf ↔
   (4 < 2)%nat ∧ (modify surface_chain).2 !! 4%nat = Some srf).
Proof.
  split.
  - apply (visible_surface_labels surface_chain 8 4 eq_refl); vm_compute; lia.
  - apply (visible_surface_labels surface_chain 2 4 eq_refl); vm_compute; lia.
Defined.

(** The surface predicate can only gain from more Surface labels. *)
Lemma surface_mono d s1 s2 i :
  (∀ n, s1 !! n = Some srf → s2 !! n = Some srf) →
  Spec.surface d s1 i = true → Spec.surface d s2 i = true.
Proof.
  intros Hsub. unfold Spec.surface.
  rewrite !andb_true_iff, !orb_true_iff, !Z.leb_le.
  intros [Hc [Hk|H4]]; (split; [exact Hc|]); [left; exact Hk|]. right.
  etransitivity; [exact H4|]. apply countWhere_mono. intros n _.
  unfold Spec.surface_qualifying. rewrite !orb_true_iff, !bool_decide_eq_true.
  intros [Hl|Hr]; [left; apply Hsub, Hl | right; exact Hr].
Qed.

(** X3: a particle that [is_surface] matches on the freshly initialised
    defect property, where no particle is labelled Surface yet, is
    labelled Surface by the pass: the labels read by the counting loop
    can only add surface-qualifying neighbours. *)
Theorem surface_on_raw_descriptors_stays d i :
  aligned d = true → (i < natoms d)%nat →
  (is_surface d i (replicate (natoms d) blk)).1 = Some true →
  (modify d).2 !! i = Some srf.
Proof.
  intros Hal Hi.
  rewrite (is_surface_result d i _ Hal Hi (length_replicate _ _)).
  intros [= Hs]. rewrite (modify_at d i Hal Hi), Some_inj_iff.
  apply label_srf_iff.
  assert (Hs' : Spec.surface d (labels_before d i) i = true).
  { apply (surface_mono d (replicate (natoms d) blk)); [|exact Hs].
    intros n [Hn _]%lookup_replicate_1. discriminate Hn. }
  split; [|exact Hs'].
  unfold Spec.surface in Hs. unfold Spec.perfect_lattice.
  apply andb_true_iff in Hs as [Hc _]. apply negb_true_iff in Hc.
  rewrite Hc. reflexivity.
Qed.

Lemma surface_on_raw_descriptors_stays_witness :
  (modify surface_chain).2 !! 4%nat = Some srf.
Proof.
  apply (surface_on_raw_descriptors_stays surface_chain 4 eq_refl);
    [vm_compute; lia | reflexivity].
Defined.

(** X4: a particle that is BCC-like, or whose coordination is at most 11,
    gets its label without any look at the defect property: its turn
    writes the label of the finished pass on whatever defect property it
    runs.  The order of evaluation matters only for the other particles. *)
Theorem label_without_reading_labels d i s :
  aligned d = true → (i < natoms d)%nat → length s = natoms d →
  Spec.structureType d i = 3 ∨ Spec.coordination d i ≤ 11 →
  (classify d i s).2 !! i = (modify d).2 !! i.
Proof.
  intros Hal Hi Hs Hor.
  rewrite (classify_eval d Hal i s Hi Hs), (modify_at d i Hal Hi). simpl.
  rewrite list_lookup_insert_eq by lia. f_equal.
  unfold Spec.label.
  replace (Spec.surface d s i) with (Spec.surface d (labels_before d i) i);
    [reflexivity|].
  unfold Spec.surface, Spec.BCC_like. destruct Hor as [->|Hk].
  - reflexivity.
  - apply Z.leb_le in Hk. rewrite Hk. reflexivity.
Qed.

Lemma label_without_reading_labels_witness :
  (classify bcc_row 0 [srf; srf; srf]).2 !! 0%nat = (modify bcc_row).2 !! 0%nat.
Proof.
  apply (label_without_reading_labels bcc_row 0 _ eq_refl);
    [vm_compute; lia | reflexivity | left; reflexivity].
Defined.

(** X5: a particle the pass labels Twin has coordination 14 and is not
    BCC-like, and either its centrosymmetry is above 8 or at least 7 of
    its filtered neighbours have coordination 14.  The branch of [is_twin]
    for coordination 13 never decides a label: 5 filtered neighbours of
    coordination 13 against 2 of coordination 14 make [is_dislo], tried
    earlier, match. *)
Theorem twin_only_at_coordination_14 d i :
  aligned d = true → (i < natoms d)%nat →
  (modify d).2 !! i = Some twn →
  Spec.coordination d i = 14 ∧ Spec.structureType d i ≠ 3 ∧
  (PrimFloat.ltb 8 (Spec.centrosymmetry d i) = true ∨
   7 ≤ Spec.countWhere (λ n, Spec.coordination d n =? 14) (Spec.NeighborSet d i)).
Proof.
  intros Hal Hi. rewrite (modify_at d i Hal Hi), Some_inj_iff.
  destruct (label_shape d (labels_before d i) i) as (_ & _ & -> & _).
  intros (Hp & _ & Hd & _ & Ht).
  unfold Spec.twin in Ht. unfold Spec.dislocation in Hd.
  unfold Spec.perfect_lattice, Spec.BCC_like in Hp.
  set (ns := Spec.NeighborSet d i) in *.
  pose proof (countWhere_mono (λ n, Spec.coordination d n =? 13)
                (λ n, negb (Spec.coordination d n =? 14)) ns) as H13.
  pose proof (countWhere_mono (λ n, Spec.coordination d n =? 13)
                (λ n, (12 <=? Spec.coordination d n)
                      && negb (Spec.coordination d n =? 14)) ns) as H13'.
  assert (Himp : ∀ x, (Spec.coordination d x =? 13) = true →
            negb (Spec.coordination d x =? 14) = true ∧
            (12 <=? Spec.coordination d x) && negb (Spec.coordination d x =? 14) = true).
  { intros x Hx%Z.eqb_eq. rewrite Hx. split; reflexivity. }
  specialize (H13 (λ x _ Hx, proj1 (Himp x Hx))).
  specialize (H13' (λ x _ Hx, proj2 (Himp x Hx))).
  destruct (Z.eqb_spec (Spec.coordination d i) 13) as [Hk|Hk].
  - (* coordination 13 *)
    rewrite Hk in *. simpl in Hd, Ht.
    apply Z.ltb_ge in Hd.
    destruct (PrimFloat.ltb 4.5 (Spec.centrosymmetry d i)); [|discriminate].
    apply andb_true_iff in Ht as [H5%Z.eqb_eq H2%Z.eqb_eq]. lia.
  - destruct (Z.eqb_spec (Spec.coordination d i) 14) as [Hk14|Hk14];
      [|simpl in Ht; discriminate].
    rewrite Hk14 in *. simpl in Hd, Ht, Hp.
    rewrite andb_true_r in Hp. apply Z.eqb_neq in Hp.
    split; [reflexivity | split; [exact Hp|]].
    destruct (PrimFloat.ltb 8 (Spec.centrosymmetry d i)); [left; reflexivity|].
    right. apply andb_true_iff in Ht as [H4%Z.leb_le _].
    apply andb_false_iff in Hd as [Hd%Z.leb_gt | Hd%Z.leb_gt]; lia.
Qed.

Lemma twin_only_at_coordination_14_witness :
  Spec.coordination twin_site 0 = 14 ∧ Spec.structureType twin_site 0 ≠ 3 ∧
  (PrimFloat.ltb 8 (Spec.centrosymmetry twin_site 0) = true ∨
   7 ≤ Spec.countWhere (λ n, Spec.coordination twin_site n =? 14)
                       (Spec.NeighborSet twin_site 0)).
Proof.
  apply (twin_only_at_coordination_14 twin_site 0 eq_refl);
    [vm_compute; lia | reflexivity].
Defined.

(** A vacancy signature brings at least 4 filtered neighbours of
    coordination 12 or 13. *)
Lemma vacancy_strained_count d i :
  Spec.vacancy d i = true →
  (Spec.coordination d i = 12 ∨ Spec.coordination d i = 13) ∧
  4 ≤ Spec.countWhere (λ n, negb (Spec.coordination d n =? 14)) (Spec.NeighborSet d i).
Proof.
  unfold Spec.vacancy. set (ns := Spec.NeighborSet d i).
  pose proof (countWhere_add_le (Spec.strained d 13) (Spec.strained d 12)
                (λ n, negb (Spec.coordination d n =? 14)) ns) as Hle.
  assert (Hpt : ∀ x, In x ns →
            Z.b2z (Spec.strained d 13 x) + Z.b2z (Spec.strained d 12 x)
            ≤ Z.b2z (negb (Spec.coordination d x =? 14))).
  { intros x _. unfold Spec.strained.
    destruct (Z.eqb_spec (Spec.coordination d x) 13) as [->|?];
      [simpl; destruct (PrimFloat.ltb 4 _); simpl; lia|].
    destruct (Z.eqb_spec (Spec.coordination d x) 12) as [->|?];
      [simpl; destruct (PrimFloat.ltb 4 _); simpl; lia|].
    simpl. destruct (negb _); simpl; lia. }
  specialize (Hle Hpt).
  pose proof (countWhere_nonneg (Spec.strained d 13) ns).
  pose proof (countWhere_nonneg (Spec.strained d 12) ns).
  destruct (Z.eqb_spec (Spec.coordination d i) 13) as [Hk|Hk]; simpl.
  - destruct (PrimFloat.ltb (Spec.centrosymmetry d i) 1).
    + rewrite orb_true_iff, andb_true_iff, !Z.eqb_eq. intros Hv.
      split; [right; exact Hk | lia].
    + destruct (PrimFloat.ltb 4 (Spec.centrosymmetry d i)).
      * rewrite Z.leb_le. intros Hv. split; [right; exact Hk | lia].
      * destruct (Z.eqb_spec (Spec.coordination d i) 12); [lia|].
        simpl. discriminate.
  - destruct (Z.eqb_spec (Spec.coordination d i) 12) as [Hk12|Hk12];
      simpl; [|discriminate].
    destruct (PrimFloat.ltb 4 (Spec.centrosymmetry d i)); [|discriminate].
    rewrite andb_true_iff, !Z.eqb_eq. intros Hv.
    split; [left; exact Hk12 | lia].
Qed.

(** For a coordination of 12 or more other than 14, a failing [is_dislo]
    means that the filtered neighbours of coordination 14 are at least as
    many as the others. *)
Lemma no_dislocation_majority d i :
  12 ≤ Spec.coordination d i → Spec.coordination d i ≠ 14 →
  Spec.dislocation d i = false →
  Spec.countWhere (λ n, negb (Spec.coordination d n =? 14)) (Spec.NeighborSet d i)
  ≤ Spec.countWhere (λ n, Spec.coordination d n =? 14) (Spec.NeighborSet d i).
Proof.
  intros Hge Hne. unfold Spec.dislocation.
  apply Z.leb_le in Hge. apply Z.eqb_neq in Hne. rewrite Hge, Hne. simpl.
  intros Hd%Z.ltb_ge. exact Hd.
Qed.

(** X6: a particle the pass labels Vacancy has coordination 12 or 13, and
    at least 4 of its in-cutoff neighbours have coordination 14 without
    being BCC-like: a vacancy signature needs 4 filtered neighbours of
    coordination 12 or 13, and [is_dislo], tried earlier, matches unless
    the filtered neighbours of coordination 14 are at least as many. *)
Theorem vacancy_needs_distorted_14_neighbors d i :
  aligned d = true → (i < natoms d)%nat →
  (modify d).2 !! i = Some vcn →
  (Spec.coordination d i = 12 ∨ Spec.coordination d i = 13) ∧
  4 ≤ Spec.countWhere
        (λ n, (Spec.coordination d n =? 14) && negb (Spec.structureType d n =? 3))
        (neighbor_finder d i).
Proof.
  intros Hal Hi. rewrite (modify_at d i Hal Hi), Some_inj_iff, label_vcn_iff.
  intros (_ & _ & Hd & Hv).
  destruct (vacancy_strained_count d i Hv) as [Hk H4].
  split; [exact Hk|]. rewrite <- count14_NeighborSet.
  pose proof (no_dislocation_majority d i ltac:(lia) ltac:(lia) Hd). lia.
Qed.

Lemma vacancy_needs_distorted_14_neighbors_witness :
  (Spec.coordination vacancy_shell_distorted 0 = 12 ∨
   Spec.coordination vacancy_shell_distorted 0 = 13) ∧
  4 ≤ Spec.countWhere
        (λ n, (Spec.coordination vacancy_shell_distorted n =? 14)
              && negb (Spec.structureType vacancy_shell_distorted n =? 3))
        (neighbor_finder vacancy_shell_distorted 0).
Proof.
  apply (vacancy_needs_distorted_14_neighbors vacancy_shell_distorted 0 eq_refl);
    [vm_compute; lia | reflexivity].
Defined.

(** A planar-fault signature that [is_dislo] has let through needs 18
    filtered neighbours. *)
Lemma planar_fault_neighbors d i :
  Spec.dislocation d i = false → Spec.planar_fault d i = true →
  Spec.structureType d i ≠ 3 ∧
  (Spec.coordination d i = 12 ∨ Spec.coordination d i = 13) ∧
  18 ≤ Z.of_nat (length (Spec.NeighborSet d i)).
Proof.
  intros Hd. unfold Spec.planar_fault, Spec.BCC_like.
  set (ns := Spec.NeighborSet d i).
  pose proof (countWhere_add_le (λ n, Spec.coordination d n =? 12)
                (λ n, Spec.coordination d n =? 13)
                (λ n, negb (Spec.coordination d n =? 14)) ns) as Hle.
  assert (Hpt : ∀ x, In x ns →
            Z.b2z (Spec.coordination d x =? 12) + Z.b2z (Spec.coordination d x =? 13)
            ≤ Z.b2z (negb (Spec.coordination d x =? 14))).
  { intros x _.
    destruct (Z.eqb_spec (Spec.coordination d x) 12) as [->|?]; [simpl; lia|].
    destruct (Z.eqb_spec (Spec.coordination d x) 13) as [->|?]; [simpl; lia|].
    simpl. destruct (negb _); simpl; lia. }
  specialize (Hle Hpt).
  pose proof (countWhere_complement (λ n, Spec.coordination d n =? 14) ns) as Hco.
  rewrite andb_true_iff, negb_true_iff, Z.eqb_neq. intros [Hc Hpf].
  split; [exact Hc|].
  destruct (Z.eqb_spec (Spec.coordination d i) 12) as [Hk|Hk].
  - pose proof (no_dislocation_majority d i ltac:(lia) ltac:(lia) Hd).
    rewrite !andb_true_iff, !Z.leb_le in Hpf.
    split; [left; exact Hk | fold ns in H; lia].
  - destruct (Z.eqb_spec (Spec.coordination d i) 13) as [Hk13|Hk13];
      [|discriminate].
    pose proof (no_dislocation_majority d i ltac:(lia) ltac:(lia) Hd).
    rewrite andb_true_iff, Z.eqb_eq, Z.leb_le in Hpf.
    split; [right; exact Hk13 | fold ns in H; lia].
Qed.

(** X7: a particle the pass labels Planar Fault is not BCC-like, has
    coordination 12 or 13, and has at least 18 in-cutoff neighbours: the
    signature needs 9 (or 10) filtered neighbours of coordination 12 or
    13, and [is_dislo], tried earlier, matches unless there are as many of
    coordination 14. *)
Theorem planar_fault_needs_18_neighbors d i :
  aligned d = true → (i < natoms d)%nat →
  (modify d).2 !! i = Some plf →
  Spec.structureType d i ≠ 3 ∧
  (Spec.coordination d i = 12 ∨ Spec.coordination d i = 13) ∧
  (18 ≤ length (neighbor_finder d i))%nat.
Proof.
  intros Hal Hi. rewrite (modify_at d i Hal Hi), Some_inj_iff.
  destruct (label_shape d (labels_before d i) i) as (_ & _ & _ & ->).
  intros (_ & _ & Hd & _ & _ & Hpf).
  destruct (planar_fault_neighbors d i Hd Hpf) as (Hc & Hk & H18).
  split; [exact Hc | split; [exact Hk|]].
  pose proof (NeighborSet_length d i). lia.
Qed.

Lemma planar_fault_needs_18_neighbors_witness :
  Spec.structureType planar_fault_site 0 ≠ 3 ∧
  (Spec.coordination planar_fault_site 0 = 12 ∨
   Spec.coordination planar_fault_site 0 = 13) ∧
  (18 ≤ length (neighbor_finder planar_fault_site 0))%nat.
Proof.
  apply (planar_fault_needs_18_neighbors planar_fault_site 0 eq_refl);
    [vm_compute; lia | reflexivity].
Defined.

(** X8: the script computes the coordination and builds the neighbour
    finder with the same cutoff, so the coordination of a particle is the
    number of its in-cutoff neighbours; such a particle is never labelled
    Planar Fault. *)
Theorem planar_fault_unreachable d i :
  aligned d = true → (i < natoms d)%nat →
  Z.of_nat (length (neighbor_finder d i)) = Spec.coordination d i →
  (modify d).2 !! i ≠ Some plf.
Proof.
  intros Hal Hi Hcount. rewrite (modify_at d i Hal Hi), Some_inj_iff.
  destruct (label_shape d (labels_before d i) i) as (_ & _ & _ & ->).
  intros (_ & _ & Hd & _ & _ & Hpf).
  destruct (planar_fault_neighbors d i Hd Hpf) as (_ & Hk & H18).
  pose proof (NeighborSet_length d i). lia.
Qed.

Lemma planar_fault_unreachable_witness :
  (modify planar_like_shell).2 !! 0%nat ≠ Some plf.
Proof.
  apply (planar_fault_unreachable planar_like_shell 0 eq_refl);
    [vm_compute; lia | reflexivity].
Defined.

(** ** Particles in an undisturbed neighbourhood *)

(** With no filtered neighbour every neighbour sum is 0, and only the
    tests on the particle's own descriptors can succeed. *)
Lemma label_without_neighbors d s i :
  Spec.NeighborSet d i = [] →
  Spec.label d s i
  = if Spec.perfect_lattice d i then blk
    else if negb (Spec.structureType d i =? 3) && (Spec.coordination d i <=? 11)
         then srf
    else if (Spec.coordination d i =? 14) && PrimFloat.ltb 8 (Spec.centrosymmetry d i)
         then twn
    else els.
Proof.
  intros Hns.
  unfold Spec.label, Spec.surface, Spec.dislocation, Spec.vacancy, Spec.twin,
    Spec.planar_fault, Spec.BCC_like.
  rewrite Hns, !countWhere_nil.
  destruct (Spec.perfect_lattice d i); [reflexivity|].
  destruct (negb (Spec.structureType d i =? 3)); simpl;
    [destruct (Spec.coordination d i <=? 11); [reflexivity|]; simpl|];
    (destruct (Z.eqb_spec (Spec.coordination d i) 13) as [->|?]; simpl;
     [|destruct (Z.eqb_spec (Spec.coordination d i) 14) as [->|?]; simpl;
       [|destruct (Z.eqb_spec (Spec.coordination d i) 12) as [->|?]; simpl]]);
    repeat match goal with
           | |- context [PrimFloat.ltb ?a ?b] => destruct (PrimFloat.ltb a b); simpl
           | |- context [12 <=? ?a] => destruct (12 <=? a); simpl
           end;
    reflexivity.
Qed.

Lemma NeighborSet_nil d i :
  (∀ n, In n (neighbor_finder d i) → Spec.perfect_lattice d n = true) →
  Spec.NeighborSet d i = [].
Proof.
  intros H. unfold Spec.NeighborSet.
  induction (neighbor_finder d i) as [|x l IH]; [reflexivity|].
  simpl. rewrite (H x (or_introl eq_refl)). simpl.
  apply IH. intros n Hn. apply H. right. exact Hn.
Qed.

(** X9: a particle all of whose in-cutoff neighbours are perfect-lattice
    particles (BCC-like with coordination 14), or that has no neighbour at
    all, is judged on its own descriptors only: Bulk if it is
    perfect-lattice itself, Surface if it is not BCC-like with
    coordination at most 11, Twin if its coordination is 14 with
    centrosymmetry above 8, and Unidentified otherwise; never Dislocation,
    Vacancy or Planar Fault. *)
Theorem defect_among_perfect_neighbors d i :
  aligned d = true → (i < natoms d)%nat →
  (∀ n, In n (neighbor_finder d i) →
        Spec.structureType d n = 3 ∧ Spec.coordination d n = 14) →
  (modify d).2 !! i
  = Some (if (Spec.structureType d i =? 3) && (Spec.coordination d i =? 14) then blk
          else if negb (Spec.structureType d i =? 3) && (Spec.coordination d i <=? 11)
               then srf
          else if (Spec.coordination d i =? 14)
                  && PrimFloat.ltb 8 (Spec.centrosymmetry d i)
               then twn
          else els).
Proof.
  intros Hal Hi Hnb. rewrite (modify_at d i Hal Hi). f_equal.
  apply label_without_neighbors, NeighborSet_nil.
  intros n Hn. destruct (Hnb n Hn) as [Hc Hk].
  unfold Spec.perfect_lattice, Spec.BCC_like. rewrite Hc, Hk. reflexivity.
Qed.

Lemma defect_among_perfect_neighbors_witness :
  (modify defect_in_perfect_crystal).2 !! 0%nat = Some els.
Proof.
  apply (defect_among_perfect_neighbors defect_in_perfect_crystal 0 eq_refl);
    [vm_compute; lia|].
  intros n Hn. vm_compute in Hn.
  destruct Hn as [<-|[<-|[]]]; split; reflexivity.
Defined.

(** In a snapshot where every particle is BCC-like, the filtered
    neighbours are the in-cutoff neighbours of another coordination than
    14. *)
Lemma NeighborSet_all_bcc d i :
  aligned d = true → (i < natoms d)%nat →
  Forall (λ c, c = 3) (atom_cna d) →
  Spec.NeighborSet d i
  = List.filter (λ n, negb (Spec.coordination d n =? 14)) (neighbor_finder d i).
Proof.
  intros Hal Hi Hall. unfold Spec.NeighborSet.
  apply List.filter_ext_in. intros n Hn.
  pose proof (aligned_neighbor d i n Hal Hi Hn) as Hlt.
  rewrite <- (aligned_cna d Hal) in Hlt.
  destruct (lookup_lt_is_Some_2 _ _ Hlt) as [c Hc].
  pose proof (proj1 (Forall_lookup _ _) Hall n c Hc) as ->.
  unfold Spec.perfect_lattice, Spec.BCC_like.
  rewrite (structureType_lookup d n 3 Hc). reflexivity.
Qed.

(** X10: in a snapshot where every particle is BCC-like the pass knows
    three labels only: Bulk for coordination 14, Dislocation for a
    coordination of 12 or more with at least one in-cutoff neighbour of
    another coordination than 14, and Unidentified for the rest. *)
Theorem all_bcc_like_snapshot d i :
  aligned d = true → (i < natoms d)%nat →
  Forall (λ c, c = 3) (atom_cna d) →
  (modify d).2 !! i
  = Some (if Spec.coordination d i =? 14 then blk
          else if (12 <=? Spec.coordination d i)
                  && existsb (λ n, negb (Spec.coordination d n =? 14))
                             (neighbor_finder d i)
               then dsl
          else els).
Proof.
  intros Hal Hi Hall. rewrite (modify_at d i Hal Hi). f_equal.
  assert (Hc : Spec.structureType d i = 3).
  { pose proof Hi as Hlt. rewrite <- (aligned_cna d Hal) in Hlt.
    destruct (lookup_lt_is_Some_2 _ _ Hlt) as [c Hc].
    pose proof (proj1 (Forall_lookup _ _) Hall i c Hc) as ->.
    apply structureType_lookup, Hc. }
  pose proof (NeighborSet_all_bcc d i Hal Hi Hall) as Hns.
  destruct (existsb _ (neighbor_finder d i)) eqn:Hex.
  - (* some neighbour is not 14-coordinated *)
    unfold Spec.label, Spec.perfect_lattice, Spec.surface, Spec.BCC_like.
    rewrite Hc. simpl.
    destruct (Z.eqb_spec (Spec.coordination d i) 14) as [Hk|Hk]; [reflexivity|].
    unfold Spec.dislocation.
    destruct (12 <=? Spec.coordination d i) eqn:Hge; simpl.
    + apply Z.eqb_neq in Hk. rewrite Hk. simpl.
      assert (H14 : Spec.countWhere (λ n, Spec.coordination d n =? 14)
                      (Spec.NeighborSet d i) = 0).
      { rewrite Hns, countWhere_filter.
        rewrite (countWhere_ext _ (λ _, false)); [|intros x _; apply andb_negb_l].
        clear. induction (neighbor_finder d i) as [|x l IH]; [reflexivity|].
        rewrite countWhere_cons, IH. reflexivity. }
      assert (Hpos : 0 < Spec.countWhere (λ n, negb (Spec.coordination d n =? 14))
                          (Spec.NeighborSet d i)).
      { rewrite countWhere_complement, H14, Hns.
        apply existsb_exists in Hex as (x & Hx & Hq).
        assert (Hin : In x (List.filter (λ n, negb (Spec.coordination d n =? 14))
                              (neighbor_finder d i)))
          by (apply filter_In; split; assumption).
        destruct (List.filter _ _); [destruct Hin | simpl length; lia]. }
      rewrite H14. apply Z.ltb_lt in Hpos. rewrite Hpos. reflexivity.
    + apply Z.leb_gt in Hge.
      unfold Spec.vacancy, Spec.twin, Spec.planar_fault, Spec.BCC_like.
      rewrite Hc.
      destruct (Z.eqb_spec (Spec.coordination d i) 14); [lia|].
      destruct (Z.eqb_spec (Spec.coordination d i) 13); [lia|].
      destruct (Z.eqb_spec (Spec.coordination d i) 12); [lia|].
      reflexivity.
  - (* every neighbour is 14-coordinated, hence perfect-lattice *)
    rewrite andb_false_r.
    rewrite label_without_neighbors.
    + unfold Spec.perfect_lattice, Spec.BCC_like. rewrite Hc. simpl.
      destruct (Spec.coordination d i =? 14); reflexivity.
    + rewrite Hns.
      assert (Hall14 : ∀ x, In x (neighbor_finder d i) →
                negb (Spec.coordination d x =? 14) = false).
      { intros x Hx. destruct (negb _) eqn:Hq; [|reflexivity].
        assert (existsb (λ n, negb (Spec.coordination d n =? 14))
                  (neighbor_finder d i) = true)
          by (apply existsb_exists; exists x; split; assumption).
        congruence. }
      clear Hex Hns. induction (neighbor_finder d i) as [|x l IH]; [reflexivity|].
      simpl. rewrite (Hall14 x (or_introl eq_refl)).
      apply IH. intros y Hy. apply Hall14. right. exact Hy.
Qed.

Lemma all_bcc_like_snapshot_witness :
  (modify bcc_row).2 !! 0%nat = Some dsl ∧
  (modify bcc_row).2 !! 1%nat = Some blk ∧
  (modify defect_in_perfect_crystal).2 !! 0%nat = Some els.
Proof.
  split; [|split].
  - apply (all_bcc_like_snapshot bcc_row 0 eq_refl);
      [vm_compute; lia | repeat constructor].
  - apply (all_bcc_like_snapshot bcc_row 1 eq_refl);
      [vm_compute; lia | repeat constructor].
  - apply (all_bcc_like_snapshot defect_in_perfect_crystal 0 eq_refl);
      [vm_compute; lia | repeat constructor].
Defined.

(** ** The dislocation rule on the in-cutoff neighbours *)

(** A test that fails on coordination 14 counts the same over the
    filtered and over the in-cutoff neighbours. *)
Lemma countWhere_not14_NeighborSet d i q :
  (∀ n, q n = true → (Spec.coordination d n =? 14) = false) →
  Spec.countWhere q (Spec.NeighborSet d i) = Spec.countWhere q (neighbor_finder d i).
Proof.
  intros Hq. unfold Spec.NeighborSet. rewrite countWhere_filter.
  apply countWhere_ext. intros n _. unfold Spec.perfect_lattice.
  destruct (q n) eqn:Hn; [|apply andb_false_r].
  rewrite (Hq n Hn), andb_false_r. reflexivity.
Qed.

(** X11: for a particle that [is_surface] does not match, with a
    coordination of 12 or more other than 14 the label is Dislocation
    exactly when its in-cutoff neighbours of coordination 14 that are not
    BCC-like are fewer than its in-cutoff neighbours of another
    coordination than 14 (perfect-lattice neighbours count on neither
    side); with coordination 14 and not BCC-like, exactly when at least 4
    in-cutoff neighbours have a coordination of 12 or more other than 14
    and at most 6 have coordination 14 without being BCC-like; with a
    coordination below 12 it is never Dislocation. *)
Theorem dislocation_rule d i :
  aligned d = true → (i < natoms d)%nat →
  (is_surface d i (labels_before d i)).1 = Some false →
  (12 ≤ Spec.coordination d i → Spec.coordination d i ≠ 14 →
   ((modify d).2 !! i = Some dsl ↔
    Spec.countWhere
      (λ n, (Spec.coordination d n =? 14) && negb (Spec.structureType d n =? 3))
      (neighbor_finder d i)
    < Spec.countWhere (λ n, negb (Spec.coordination d n =? 14)) (neighbor_finder d i))) ∧
  (Spec.coordination d i = 14 → Spec.structureType d i ≠ 3 →
   ((modify d).2 !! i = Some dsl ↔
    4 ≤ Spec.countWhere
          (λ n, (12 <=? Spec.coordination d n) && negb (Spec.coordination d n =? 14))
          (neighbor_finder d i) ∧
    Spec.countWhere
      (λ n, (Spec.coordination d n =? 14) && negb (Spec.structureType d n =? 3))
      (neighbor_finder d i) ≤ 6)) ∧
  (Spec.coordination d i < 12 → (modify d).2 !! i ≠ Some dsl).
Proof.
  intros Hal Hi.
  pose proof (labels_before_length d i Hal ltac:(lia)) as Hlen.
  rewrite (is_surface_result d i _ Hal Hi Hlen). intros [= Hs].
  rewrite (modify_at d i Hal Hi), Some_inj_iff.
  destruct (label_shape d (labels_before d i) i) as (_ & -> & _).
  rewrite Hs. unfold Spec.perfect_lattice, Spec.dislocation, Spec.BCC_like.
  rewrite count14_NeighborSet.
  rewrite (countWhere_not14_NeighborSet d i
             (λ n, negb (Spec.coordination d n =? 14)))
    by (intros n Hn; apply negb_true_iff, Hn).
  rewrite (countWhere_not14_NeighborSet d i
             (λ n, (12 <=? Spec.coordination d n) && negb (Spec.coordination d n =? 14)))
    by (intros n [_ Hn]%andb_true_iff; apply negb_true_iff, Hn).
  split; [|split].
  - intros Hge Hne. apply Z.leb_le in Hge. apply Z.eqb_neq in Hne.
    rewrite Hge, Hne, andb_false_r. simpl. rewrite Z.ltb_lt. tauto.
  - intros Hk Hc. apply Z.eqb_neq in Hc. rewrite Hk, Hc. simpl.
    rewrite andb_true_iff, !Z.leb_le. tauto.
  - intros Hlt.
    assert (Hge : (12 <=? Spec.coordination d i) = false) by (apply Z.leb_gt; lia).
    assert (Hne : (Spec.coordination d i =? 14) = false) by (apply Z.eqb_neq; lia).
    rewrite Hge, Hne. simpl. intros (_ & _ & ?). discriminate.
Qed.

Lemma dislocation_rule_witness :
  (modify vacancy_shell_distorted).2 !! 0%nat = Some dsl ↔
  Spec.countWhere
    (λ n, (Spec.coordination vacancy_shell_distorted n =? 14)
          && negb (Spec.structureType vacancy_shell_distorted n =? 3))
    (neighbor_finder vacancy_shell_distorted 0)
  < Spec.countWhere (λ n, negb (Spec.coordination vacancy_shell_distorted n =? 14))
      (neighbor_finder vacancy_shell_distorted 0).
Proof.
  apply (dislocation_rule vacancy_shell_distorted 0 eq_refl);
    [vm_compute; lia | reflexivity | vm_compute; congruence
    | vm_compute; congruence].
Defined.

(** ** Snapshots that are not aligned *)

Lemma classify_raises d k s :
  atom_cna d !! k = None → classify d k s = (None, s).
Proof.
  intros Hc. unfold classify, and_then, bind, load. rewrite Hc. reflexivity.
Qed.

Lemma for_range_raises d a n k s :
  atom_cna d !! k = None → (a ≤ k < a + n)%nat →
  (for_range a n (classify d) s).1 = None.
Proof.
  intros Hc. revert a s. induction n as [|n IH]; intros a s Hk; [lia|].
  simpl. unfold bind.
  destruct (classify d a s) as [[[]|] s1] eqn:Hstep; [|reflexivity].
  destruct (decide (a = k)) as [->|Hne].
  - rewrite (classify_raises d k s Hc) in Hstep. discriminate.
  - apply IH. lia.
Qed.

Lemma for_range_stops d a n k0 k s :
  atom_cna d !! k0 = None → (a ≤ k0 ≤ k)%nat →
  (for_range a n (classify d) s).2 !! k = s !! k.
Proof.
  intros Hc. revert a s. induction n as [|n IH]; intros a s Hk; [reflexivity|].
  simpl. unfold bind.
  destruct (decide (a = k0)) as [->|Hne].
  - rewrite (classify_raises d k0 s Hc). reflexivity.
  - destruct (touches_classify d a s) as [_ Hframe].
    specialize (Hframe k ltac:(lia)).
    destruct (classify d a s) as [[[]|] s1]; simpl in *.
    + rewrite IH by lia. exact Hframe.
    + exact Hframe.
Qed.

(** X12: when the structure type array is shorter than the coordination
    array, the pass raises (IndexError), and every particle from the
    first missing entry on is left with the initial [blk]. *)
Theorem short_structure_array_raises d :
  (length (atom_cna d) < natoms d)%nat →
  (modify d).1 = None ∧
  ∀ k, (length (atom_cna d) ≤ k < natoms d)%nat → (modify d).2 !! k = Some blk.
Proof.
  intros Hshort.
  assert (Hc : atom_cna d !! length (atom_cna d) = None)
    by (apply lookup_ge_None; lia).
  unfold modify. fold (natoms d). split.
  - apply (for_range_raises d 0 (natoms d) _ _ Hc). lia.
  - intros k Hk.
    rewrite (for_range_stops d 0 (natoms d) _ k _ Hc) by lia.
    apply lookup_replicate_2. lia.
Qed.

Lemma short_structure_array_raises_witness :
  (modify ragged).1 = None ∧
  ∀ k, (length (atom_cna ragged) ≤ k < natoms ragged)%nat →
       (modify ragged).2 !! k = Some blk.
Proof. apply (short_structure_array_raises ragged). vm_compute; lia. Defined.

(** ** Only defect types are written *)

Lemma keeps_ret {A : Type} (a : A) : keeps_defect_types (ret a).
Proof. intros s Hs. exact Hs. Qed.

Lemma keeps_load {A : Type} (arr : list A) n : keeps_defect_types (load arr n).
Proof. intros s Hs. exact Hs. Qed.

Lemma keeps_get_label n : keeps_defect_types (get_label n).
Proof. intros s Hs. exact Hs. Qed.

Lemma keeps_set_label i v :
  In v defect_types → keeps_defect_types (set_label i v).
Proof.
  intros Hv s Hs. unfold set_label. case_decide; simpl; [|exact Hs].
  apply Forall_insert; assumption.
Qed.

Lemma keeps_bind {A B : Type} (m : M A) (f : A → M B) :
  keeps_defect_types m → (∀ a, keeps_defect_types (f a)) →
  keeps_defect_types (bind m f).
Proof.
  intros Hm Hf s Hs. unfold bind. specialize (Hm s Hs).
  destruct (m s) as [[a|] s1]; simpl in Hm; [|exact Hm].
  apply Hf, Hm.
Qed.

Lemma keeps_and_then (a b : M bool) :
  keeps_defect_types a → keeps_defect_types b → keeps_defect_types (and_then a b).
Proof.
  intros Ha Hb. apply keeps_bind; [exact Ha|].
  intros []; [exact Hb | apply keeps_ret].
Qed.

Lemma keeps_or_else (a b : M bool) :
  keeps_defect_types a → keeps_defect_types b → keeps_defect_types (or_else a b).
Proof.
  intros Ha Hb. apply keeps_bind; [exact Ha|].
  intros []; [apply keeps_ret | exact Hb].
Qed.

Lemma keeps_filter_where {A : Type} (p : A → M bool) l :
  (∀ x, keeps_defect_types (p x)) → keeps_defect_types (filter_where p l).
Proof.
  intros Hp. induction l as [|x l IH]; simpl; [apply keeps_ret|].
  apply keeps_bind; [apply Hp|]. intros b.
  apply keeps_bind; [exact IH|]. intros r. apply keeps_ret.
Qed.

Lemma keeps_count_where {A : Type} (p : A → M bool) l :
  (∀ x, keeps_defect_types (p x)) → keeps_defect_types (count_where p l).
Proof.
  intros Hp. unfold count_where. generalize 0.
  induction l as [|x l IH]; intros acc; simpl; [apply keeps_ret|].
  apply keeps_bind; [apply Hp|]. intros b. apply IH.
Qed.

Ltac keeps :=
  repeat first
    [ apply keeps_ret | apply keeps_load | apply keeps_get_label
    | apply keeps_set_label; simpl; tauto
    | apply keeps_and_then | apply keeps_or_else
    | apply keeps_filter_where; intros ?
    | apply keeps_count_where; intros ?
    | apply keeps_bind; [|intros ?]
    | progress cbv zeta
    | match goal with |- keeps_defect_types (if ?b then _ else _) => destruct b end ].

Lemma keeps_classify d i : keeps_defect_types (classify d i).
Proof.
  unfold classify, is_surface, is_dislo, is_vac, is_twin, is_planarfault,
    get_neighbors, not_perfect, surface_neighbor, coord_is, coord_ge12_not14,
    coord_and_csp_gt4.
  keeps.
Qed.

(** The defect property during and after the pass. *)
Lemma modify_keeps_defect_types d :
  length (modify d).2 = natoms d ∧
  Forall (λ l, In l defect_types) (modify d).2.
Proof.
  unfold modify. fold (natoms d).
  assert (Hgen : ∀ n a s,
            length (for_range a n (classify d) s).2 = length s ∧
            (Forall (λ l, In l defect_types) s →
             Forall (λ l, In l defect_types) (for_range a n (classify d) s).2)).
  { induction n as [|n IH]; intros a s; [split; [reflexivity | tauto]|].
    simpl. unfold bind.
    destruct (touches_classify d a s) as [Hlen _].
    pose proof (keeps_classify d a s) as Hkeep.
    destruct (classify d a s) as [[[]|] s1]; simpl in *.
    - destruct (IH (S a) s1) as [Hlen' Hkeep'].
      split; [congruence | intros Hs; apply Hkeep', Hkeep, Hs].
    - split; [exact Hlen | exact Hkeep]. }
  destruct (Hgen (natoms d) 0%nat (replicate (natoms d) blk)) as [Hlen Hkeep].
  split; [rewrite Hlen; apply length_replicate|].
  apply Hkeep, Forall_replicate. simpl. tauto.
Qed.

(** X13: on every snapshot, aligned or not, and whether the pass completes
    or raises, the defect property keeps one entry per coordination entry
    and every entry is one of the seven defect types. *)
Theorem defect_property_is_valid d :
  length (modify d).2 = natoms d ∧
  ∀ i l, (modify d).2 !! i = Some l → In l defect_types.
Proof.
  destruct (modify_keeps_defect_types d) as [Hlen Hall].
  split; [exact Hlen|].
  intros i l Hl. exact (proj1 (Forall_lookup _ _) Hall i l Hl).
Qed.

(** ** Step 3: the colour array *)

Lemma color_map_defect_types l :
  In l defect_types → is_Some (color_map !! l).
Proof.
  simpl. intros [<-|[<-|[<-|[<-|[<-|[<-|[<-|[]]]]]]]]; vm_compute; eauto.
Qed.

(** Two colours whose components compare as different are different. *)
Ltac color_neq H :=
  match type of H with
  | ?x = _ =>
      apply (f_equal (λ o : option rgb,
               match o, x with
               | Some (r, g, b), Some (r', g', b') =>
                   PrimFloat.eqb r r' && PrimFloat.eqb g g' && PrimFloat.eqb b b'
               | _, _ => false
               end)) in H;
      vm_compute in H; discriminate H
  end.

Lemma color_map_inj l1 l2 :
  In l1 defect_types → In l2 defect_types →
  color_map !! l1 = color_map !! l2 → l1 = l2.
Proof.
  simpl.
  intros [<-|[<-|[<-|[<-|[<-|[<-|[<-|[]]]]]]]] [<-|[<-|[<-|[<-|[<-|[<-|[<-|[]]]]]]]] H;
    try reflexivity; color_neq H.
Qed.

(** X14: on an aligned snapshot line 211 never meets a missing key of
    [color_map]: the array [color_property] is built, with one colour per
    particle, the one [color_map] holds for the defect type of the
    particle. *)
Theorem colors_follow_labels d :
  aligned d = true →
  ∃ colors,
    modify_color d = Some colors ∧
    length colors = natoms d ∧
    ∀ i, (i < natoms d)%nat →
      ∃ l, (modify d).2 !! i = Some l ∧ colors !! i = color_map !! l.
Proof.
  intros Hal. destruct (modify_completes d Hal) as [Hrun Hlen].
  destruct (modify_keeps_defect_types d) as [_ Hvalid].
  unfold modify_color. destruct (modify d) as [r labels]; simpl in *. subst r.
  assert (Hsome : is_Some (color_property labels)).
  { apply mapM_is_Some_2. eapply Forall_impl; [exact Hvalid|].
    intros l Hl. apply color_map_defect_types, Hl. }
  destruct Hsome as [colors Hcolors]. exists colors.
  split; [exact Hcolors|].
  pose proof (proj1 (mapM_Some _ _ _) Hcolors) as Hall.
  split; [rewrite <- (Forall2_length _ _ _ Hall); exact Hlen|].
  intros i Hi.
  destruct (lookup_lt_is_Some_2 labels i ltac:(lia)) as [l Hl].
  exists l. split; [exact Hl|].
  destruct (Forall2_lookup_l _ _ _ _ _ Hall Hl) as (c & Hc & Hlc).
  rewrite Hc, Hlc. reflexivity.
Qed.

Lemma colors_follow_labels_witness :
  ∃ colors,
    modify_color bcc_row = Some colors ∧
    length colors = natoms bcc_row ∧
    ∀ i, (i < natoms bcc_row)%nat →
      ∃ l, (modify bcc_row).2 !! i = Some l ∧ colors !! i = color_map !! l.
Proof. apply (colors_follow_labels bcc_row eq_refl). Defined.

(** X15: the seven colours are pairwise different, so in the array
    [color_property] of line 211 two particles have the same colour exactly
    when they have the same defect type. *)
Theorem same_color_same_defect_type d colors i j :
  aligned d = true → (i < natoms d)%nat → (j < natoms d)%nat →
  modify_color d = Some colors →
  (colors !! i = colors !! j ↔ (modify d).2 !! i = (modify d).2 !! j).
Proof.
  intros Hal Hi Hj Hcolors.
  destruct (modify_completes d Hal) as [Hrun Hlen].
  destruct (modify_keeps_defect_types d) as [_ Hvalid].
  unfold modify_color in Hcolors.
  destruct (modify d) as [r labels]; simpl in *. subst r.
  pose proof (proj1 (mapM_Some _ _ _) Hcolors) as Hall.
  destruct (lookup_lt_is_Some_2 labels i ltac:(lia)) as [li Hli].
  destruct (lookup_lt_is_Some_2 labels j ltac:(lia)) as [lj Hlj].
  destruct (Forall2_lookup_l _ _ _ _ _ Hall Hli) as (ci & Hci & Hlci).
  destruct (Forall2_lookup_l _ _ _ _ _ Hall Hlj) as (cj & Hcj & Hlcj).
  rewrite Hci, Hcj, Hli, Hlj. split.
  - intros [= ->]. f_equal.
    apply color_map_inj.
    + exact (proj1 (Forall_lookup _ _) Hvalid i li Hli).
    + exact (proj1 (Forall_lookup _ _) Hvalid j lj Hlj).
    + congruence.
  - intros [= ->]. congruence.
Qed.

Lemma same_color_same_defect_type_witness :
  ∃ colors,
    modify_color bcc_row = Some colors ∧
    (colors !! 0%nat = colors !! 2%nat ↔
     (modify bcc_row).2 !! 0%nat = (modify bcc_row).2 !! 2%nat).
Proof.
  exists (default [] (modify_color bcc_row)).
  split; [reflexivity|].
  apply (same_color_same_defect_type bcc_row _ 0 2 eq_refl);
    [vm_compute; lia | vm_compute; lia | reflexivity].
Defined.

(** ** What the neighbour finder may and may not change *)

(** On an aligned snapshot the loop is a fold of the rule evaluator. *)
Lemma for_range_fold d a n s :
  aligned d = true → (a + n ≤ natoms d)%nat → length s = natoms d →
  for_range a n (classify d) s
  = (Some tt, fold_left (λ s j, <[j:=Spec.label d s j]> s) (seq a n) s).
Proof.
  intros Hal. revert a s. induction n as [|n IH]; intros a s Han Hs; simpl.
  - reflexivity.
  - mstep (classify_eval d Hal a s ltac:(lia) Hs).
    apply IH; [lia | rewrite length_insert; exact Hs].
Qed.

Lemma fold_label_ext (f g : list Z → nat → Z) l s :
  (∀ s j, In j l → f s j = g s j) →
  fold_left (λ s j, <[j:=f s j]> s) l s = fold_left (λ s j, <[j:=g s j]> s) l s.
Proof.
  revert s. induction l as [|j l IH]; intros s H; simpl; [reflexivity|].
  rewrite (H s j (or_introl eq_refl)). apply IH.
  intros s' j' Hj'. apply H. right. exact Hj'.
Qed.

(** X16: perfect-lattice neighbours are invisible to every rule: two
    aligned snapshots with the same descriptor arrays whose neighbour
    lists agree once the perfect-lattice particles (BCC-like, coordination
    14) are left out get the same labels from the pass. *)
Theorem perfect_neighbors_are_invisible d d' :
  aligned d = true → aligned d' = true →
  atom_coord d = atom_coord d' → atom_cna d = atom_cna d' →
  atom_csp d = atom_csp d' →
  (∀ i, (i < natoms d)%nat →
        List.filter (λ n, negb (Spec.perfect_lattice d n)) (neighbor_finder d i)
        = List.filter (λ n, negb (Spec.perfect_lattice d n)) (neighbor_finder d' i)) →
  modify d = modify d'.
Proof.
  intros Hal Hal' Hk Hc Hx Hnb.
  assert (HN : natoms d' = natoms d) by (unfold natoms; rewrite Hk; reflexivity).
  assert (Hperf : ∀ n, Spec.perfect_lattice d' n = Spec.perfect_lattice d n).
  { intros n. unfold Spec.perfect_lattice, Spec.structureType, Spec.coordination.
    rewrite Hk, Hc. reflexivity. }
  assert (Hns : ∀ i, (i < natoms d)%nat → Spec.NeighborSet d' i = Spec.NeighborSet d i).
  { intros i Hi. unfold Spec.NeighborSet. rewrite (Hnb i Hi).
    apply List.filter_ext. intros n. rewrite Hperf. reflexivity. }
  unfold modify. fold (natoms d) (natoms d'). rewrite HN.
  rewrite (for_range_fold d 0 (natoms d) _ Hal) by (lia || apply length_replicate).
  rewrite (for_range_fold d' 0 (natoms d) _ Hal')
    by (lia || (rewrite HN; apply length_replicate)).
  f_equal. apply fold_label_ext. intros s j Hj%in_seq.
  unfold Spec.label, Spec.surface, Spec.surface_qualifying, Spec.dislocation,
    Spec.vacancy, Spec.strained, Spec.twin, Spec.planar_fault.
  rewrite (Hns j) by lia. rewrite Hperf.
  unfold Spec.structureType, Spec.coordination, Spec.centrosymmetry.
  rewrite Hk, Hc, Hx. reflexivity.
Qed.

Lemma perfect_neighbors_are_invisible_witness :
  modify defect_in_perfect_crystal = modify defect_alone.
Proof.
  apply (perfect_neighbors_are_invisible defect_in_perfect_crystal defect_alone
           eq_refl eq_refl eq_refl eq_refl eq_refl).
  intros i Hi. vm_compute in Hi.
  destruct i as [|[|[|i]]]; [reflexivity | reflexivity | reflexivity | lia].
Defined.

Lemma filter_where_raises {A : Type} (p : A → M bool) l x s :
  (∀ y, label_blind (p y)) → In x l → (p x s).1 = None →
  filter_where p l s = (None, s).
Proof.
  intros Hblind Hin Hx. induction l as [|y l IH]; [destruct Hin|].
  simpl. unfold bind. destruct (Hblind y) as [r Hr]. rewrite Hr.
  destruct Hin as [->|Hin].
  - rewrite Hr in Hx. simpl in Hx. subst r. reflexivity.
  - destruct r as [b|]; [|reflexivity]. rewrite (IH Hin). reflexivity.
Qed.

(** X17: if the neighbour finder reports an index for which the structure
    type array has no entry, [get_neighbors] raises (IndexError) and
    leaves the defect property as it was. *)
Theorem get_neighbors_dangling_index d i n s :
  In n (neighbor_finder d i) → atom_cna d !! n = None →
  get_neighbors d i s = (None, s).
Proof.
  intros Hin Hc. unfold get_neighbors.
  apply (filter_where_raises _ _ n); [|exact Hin|].
  - intros y. apply blind_or_else;
      (apply blind_bind; [apply blind_load | intros ?; apply blind_ret]).
  - unfold not_perfect, or_else, bind, load. rewrite Hc. reflexivity.
Qed.

Lemma get_neighbors_dangling_index_witness :
  get_neighbors dangling_neighbor 0 [blk; blk] = (None, [blk; blk]).
Proof.
  apply (get_neighbors_dangling_index dangling_neighbor 0 7);
    [vm_compute; tauto | reflexivity].
Defined.
